(** * tss-sdk-go, package server: the secrets resource

    A shallow embedding of [server/secret.go] (and of the earlier revision of
    the same file that lacks the name search) together with the properties of
    the secret fetch, the name-to-ID resolution and the field lookup.

    Conventions of the embedding:
    - a Go [string] is a [string] (a sequence of bytes), a [[]byte] is a
      [list Byte.byte], and the conversion [string(data)] is
      [string_of_list_byte];
    - a Go [int] is a [Z]; the code only compares, copies and prints ints, so
      no wrap-around is ever computed;
    - a slice is a [list], read with [!!] and written by index; an index out
      of range is a run-time panic, which the monad [M] records as [None];
    - a Go result pair [(v, err)] stays a pair, with [option error] for the
      [error] interface ([None] is [nil]) and [option Secret] for [*Secret];
    - [s.accessResource] and [json.Unmarshal] live outside the file: they are
      Section variables, and every call of the accessor is logged. *)

From Stdlib Require Import ZArith String Ascii DecimalString DecimalPos DecimalZ.
From stdpp Require Import base list strings gmap sorting.

Open Scope string_scope.
Open Scope list_scope.
Open Scope Z_scope.

(** ** Go primitives used by the file *)

Abbreviation int := Z (only parsing).
Abbreviation bytes := (list Byte.byte) (only parsing).

(** [strconv.Itoa], also the [%d] verb of [fmt]. *)
Definition Itoa (i : int) : string := NilZero.string_of_int (Z.to_int i).

(** ** net/url: query escaping and [url.Values.Encode]

    [SecretNameToID] builds its query with the Go standard library; the
    functions below follow [net/url]: [escape] in the mode
    [encodeQueryComponent] and [Values.Encode]. *)

Definition in_range (lo hi c : ascii) : bool :=
  ((N_of_ascii lo <=? N_of_ascii c) && (N_of_ascii c <=? N_of_ascii hi))%N.

(** [shouldEscape(c, encodeQueryComponent)]: only the unreserved characters
    of RFC 3986 section 2.3 are left alone. *)
Definition shouldEscape (c : ascii) : bool :=
  if in_range "a" "z" c || in_range "A" "Z" c || in_range "0" "9" c then false
  else if Ascii.eqb c "-" || Ascii.eqb c "_" || Ascii.eqb c "." || Ascii.eqb c "~"
  then false
  else true.

(** [upperhex[n]] for a nibble [n]. *)
Definition upperhex (n : N) : ascii :=
  if (n <? 10)%N then ascii_of_N (48 + n) else ascii_of_N (55 + n).

(** [url.QueryEscape]. *)
Fixpoint QueryEscape (s : string) : string :=
  match s with
  | EmptyString => EmptyString
  | String c s' =>
      if Ascii.eqb c " " then String "+" (QueryEscape s')
      else if shouldEscape c then
        String "%" (String (upperhex (N.shiftr (N_of_ascii c) 4))
                   (String (upperhex (N.land (N_of_ascii c) 15))
                           (QueryEscape s')))
      else String c (QueryEscape s')
  end.

(** [url.Values] is [map[string][]string]. *)
Abbreviation Values := (gmap string (list string)) (only parsing).

#[global] Instance string_leb_dec (x y : string) : Decision (String.leb x y = true).
Proof. solve_decision. Defined.

(** The pairs [key=value] that one key contributes, every part escaped. *)
Definition encode_key (k : string) (vs : list string) : list string :=
  (fun v => QueryEscape k +:+ "=" +:+ QueryEscape v) <$> vs.

(** [url.Values.Encode]: keys in sorted order, pairs joined by [&]. *)
Definition Values_Encode (v : Values) : string :=
  let keys := merge_sort (fun x y => String.leb x y = true) (fst <$> map_to_list v) in
  String.concat "&" (keys ≫= (fun k => encode_key k (default [] (v !! k)))).

(** ** Errors *)

(** [MultipleSecretsFoundError] reports that a name search matched several
    secrets. *)
Record MultipleSecretsFoundError : Type := {
  IDs : list int;          (* Secret IDs for all matched secrets *)
  searchedName : string    (* Name which matched the secrets *)
}.

(** The values of the [error] interface that can reach this file: errors made
    by [fmt.Errorf], the package's own [MultipleSecretsFoundError], and errors
    of any other dynamic type (those of the transport or of encoding/json),
    kept as the name of their type and their message. *)
Inductive error : Type :=
  | fmt_Errorf (msg : string)
  | MultipleSecretsFound (e : MultipleSecretsFoundError)
  | foreign_error (dynamic_type msg : string).

Definition MultipleSecretsFoundError_Error (e : MultipleSecretsFoundError) : string :=
  "multiple (" +:+ Itoa (Z.of_nat (length (IDs e))) +:+ ") secrets found with name "
    +:+ searchedName e.

(** The [Error()] method, as the [%s] verb calls it. *)
Definition Error (e : error) : string :=
  match e with
  | fmt_Errorf msg => msg
  | MultipleSecretsFound e => MultipleSecretsFoundError_Error e
  | foreign_error _ msg => msg
  end.

(** Whether the dynamic type of the error is [MultipleSecretsFoundError],
    which is what a caller's type switch or [errors.As] branches on. *)
Definition is_MultipleSecretsFoundError (e : error) : bool :=
  match e with
  | MultipleSecretsFound _ => true
  | _ => false
  end.

(** ** The data model of secret.go *)

(** [resource] is the HTTP URL path component for the secrets resource. *)
Definition resource : string := "secrets".

(** [SecretField] is an item (field) in the secret. *)
Record SecretField : Type := {
  ItemID : int; FieldID : int; FileAttachmentID : int;
  FieldDescription : string; FieldName : string; Filename : string;
  ItemValue : string; Slug : string;
  IsFile : bool; IsNotes : bool; IsPassword : bool
}.

(** [Secret] represents a secret from Thycotic Secret Server. *)
Record Secret : Type := {
  Name : string;
  FolderID : int; ID : int; SiteID : int;
  SecretTemplateID : int; SecretPolicyID : int;
  Active : bool; CheckedOut : bool; CheckOutEnabled : bool;
  Fields : list SecretField
}.

(** The value [new(Secret)] points to. *)
Definition new_Secret : Secret :=
  {| Name := ""; FolderID := 0; ID := 0; SiteID := 0;
     SecretTemplateID := 0; SecretPolicyID := 0;
     Active := false; CheckedOut := false; CheckOutEnabled := false;
     Fields := [] |}.

(** [secret.Fields[index].ItemValue = v] on the field itself. *)
Definition set_ItemValue (v : string) (f : SecretField) : SecretField :=
  {| ItemID := ItemID f; FieldID := FieldID f; FileAttachmentID := FileAttachmentID f;
     FieldDescription := FieldDescription f; FieldName := FieldName f;
     Filename := Filename f; ItemValue := v; Slug := Slug f;
     IsFile := IsFile f; IsNotes := IsNotes f; IsPassword := IsPassword f |}.

Definition set_Fields (fs : list SecretField) (s : Secret) : Secret :=
  {| Name := Name s; FolderID := FolderID s; ID := ID s; SiteID := SiteID s;
     SecretTemplateID := SecretTemplateID s; SecretPolicyID := SecretPolicyID s;
     Active := Active s; CheckedOut := CheckedOut s;
     CheckOutEnabled := CheckOutEnabled s; Fields := fs |}.

(** The struct [record] that [SecretNameToID] declares locally. *)
Record record : Type := {
  record_ID : int;
  record_Name : string;
  record_SecretTemplateID : int;
  record_SecretTemplateName : string
}.

(** ** Calls of the resource accessor *)

(** The arguments of one call [s.accessResource(method, resource, path, input)]. *)
Record Request : Type := {
  req_method : string;
  req_resource : string;
  req_path : string;
  req_input : option bytes
}.

(** One logged call: what was asked and what came back. *)
Record Call : Type := {
  call_request : Request;
  call_data : bytes;
  call_err : option error
}.

(** ** The monad of the embedding

    A computation threads the remote world and the log of accessor calls, and
    may panic ([None]) on an index out of range. *)

Record State (World : Type) : Type := {
  world : World;
  calls : list Call          (* oldest call first *)
}.
Arguments world {World} _.
Arguments calls {World} _.

Definition M (World A : Type) : Type := State World -> option (A * State World).

Definition ret {World A} (a : A) : M World A := fun st => Some (a, st).

Definition bind {World A B} (m : M World A) (k : A -> M World B) : M World B :=
  fun st => match m st with
            | Some (a, st') => k a st'
            | None => None
            end.

Definition panic {World A} : M World A := fun _ => None.

Notation "'let*' x ':=' m 'in' k" := (bind m (fun x => k))
  (at level 10, x pattern, m at level 100, k at level 200).

(** [l[i]]: the element, or a panic. *)
Definition index {World A} (l : list A) (i : nat) : M World A :=
  match l !! i with
  | Some x => ret x
  | None => panic
  end.

(** [l[i] = f(l[i])]: the slice after the write, or a panic. *)
Definition update {World A} (l : list A) (i : nat) (f : A -> A) : M World (list A) :=
  if decide (i < length l)%nat then ret (alter f i l) else panic.

(** [l[i] = v]: the slice after the write, or a panic. *)
Definition store {World A} (l : list A) (i : nat) (v : A) : M World (list A) :=
  if decide (i < length l)%nat then ret (<[i := v]> l) else panic.

(** ** secret.go *)

Section Server.
Context {World : Type}.

(** [s.accessResource], the transport. *)
Variable accessResource :
  string -> string -> string -> option bytes -> World -> (bytes * option error) * World.

(** [json.Unmarshal(data, v)] at the two types the file decodes: the value
    [v] points to after the call, and the error. *)
Variable json_Unmarshal_Secret : bytes -> Secret -> Secret * option error.
Variable json_Unmarshal_Records : bytes -> list record -> list record * option error.

(** A call of the accessor, logged. *)
Definition access (method res path : string) (input : option bytes)
  : M World (bytes * option error) :=
  fun st =>
    let '((data, err), w) := accessResource method res path input (world st) in
    Some ((data, err),
          {| world := w;
             calls := calls st ++
               [{| call_request := {| req_method := method; req_resource := res;
                                      req_path := path; req_input := input |};
                   call_data := data; call_err := err |}] |}).

(** The loop [for i, r := range u.Records { ids[i] = r.ID }], from
    iteration [i] on, with [n] iterations left. *)
Fixpoint collect_IDs (n : nat) (i : nat) (Records : list record) (ids : list int)
  : M World (list int) :=
  match n with
  | O => ret ids
  | S n' =>
      let* r := index Records i in
      let* ids := store ids i (record_ID r) in
      collect_IDs n' (S i) Records ids
  end.

(** [SecretNameToID] returns the ID of the named secret, if only a single
    exact match is found. If no exact match is found an error is returned.
    If multiple exact matches are found an error of type
    [MultipleSecretsFoundError] is returned containing the IDs for all
    matched secrets. *)
Definition Server_SecretNameToID (name : string) : M World (int * option error) :=
  let filter :=
    Values_Encode ({[ "filter.searchFieldSlug" := ["name"];
                      "filter.searchText" := [name];
                      "filter.doNotCalculateTotal" := ["true"] ]} : Values) in
  let* (data, err) := access "GET" resource ("?" +:+ filter) None in
  match err with
  | None =>
      let '(Records, err) := json_Unmarshal_Records data [] in
      match err with
      | Some err => ret (0, Some (fmt_Errorf ("unmarshaling response: " +:+ Error err)))
      | None =>
          if decide (1 < length Records)%nat then       (* len(u.Records) > 1 *)
            let* ids := collect_IDs (length Records) 0 Records
                     (replicate (length Records) 0) in
            ret (0, Some (MultipleSecretsFound {| IDs := ids; searchedName := name |}))
          else if decide (length Records < 1)%nat then
            ret (0, Some (fmt_Errorf ("no secrets found with name '" +:+ name +:+ "'")))
          else
            let* r := index Records 0 in
            ret (record_ID r, None)
      end
  | Some err =>
      ret (0, Some (fmt_Errorf ("accessing resource " +:+ resource +:+ ": " +:+ Error err)))
  end.

(** The loop [for index, element := range secret.Fields] of [Secret], from
    iteration [index] on, with [n] iterations left. [fields] is the array
    behind [secret.Fields]; the result is the array at the end of the loop,
    or the error of the [return nil, err] that left it early. *)
Fixpoint fetch_attachments (id : int) (n : nat) (index_ : nat)
    (fields : list SecretField) : M World (list SecretField + error) :=
  match n with
  | O => ret (inl fields)
  | S n' =>
      let* element := index fields index_ in
      if decide (FileAttachmentID element ≠ 0) then
        let path := Itoa id +:+ "/fields/" +:+ Slug element in
        let* (data, err) := access "GET" resource path None in
        match err with
        | None =>
            let* fields := update fields index_ (set_ItemValue (string_of_list_byte data)) in
            fetch_attachments id n' (S index_) fields
        | Some err => ret (inr err)
        end
      else fetch_attachments id n' (S index_) fields
  end.

(** [Secret] gets the secret with [id] from the Secret Server of the given
    tenant. *)
Definition Server_Secret (id : int) : M World (option Secret * option error) :=
  let secret := new_Secret in
  let* (data, err) := access "GET" resource (Itoa id) None in
  match err with
  | None =>
      let '(secret, err) := json_Unmarshal_Secret data secret in
      match err with
      | Some err =>
          ret (None, Some (fmt_Errorf ("parsing response from /" +:+ resource +:+ "/"
                                         +:+ Itoa id +:+ ": " +:+ Error err)))
      | None =>
          (* automatically download file attachments and substitute them for
             the (dummy) ItemValue *)
          let* r := fetch_attachments id (length (Fields secret)) 0 (Fields secret) in
          match r with
          | inl fields => ret (Some (set_Fields fields secret), None)
          | inr err => ret (None, Some err)
          end
      end
  | Some err => ret (None, Some err)
  end.

(** [Field] returns the value of the field with the name [fieldName]. *)
Fixpoint Field_loop (fields : list SecretField) (fieldName : string) : string * bool :=
  match fields with
  | [] => ("", false)
  | field :: rest =>
      if String.eqb fieldName (FieldName field) || String.eqb fieldName (Slug field)
      then (ItemValue field, true)
      else Field_loop rest fieldName
  end.

Definition Secret_Field (s : Secret) (fieldName : string) : string * bool :=
  Field_loop (Fields s) fieldName.

End Server.

(** ** The earlier revision of the file (no name search)

    It declares the same package, constant and types; its two functions are
    embedded again from its own text. *)

Module Part000.
Section Server.
Context {World : Type}.

Variable accessResource :
  string -> string -> string -> option bytes -> World -> (bytes * option error) * World.
Variable json_Unmarshal_Secret : bytes -> Secret -> Secret * option error.

Definition access (method res path : string) (input : option bytes)
  : M World (bytes * option error) :=
  fun st =>
    let '((data, err), w) := accessResource method res path input (world st) in
    Some ((data, err),
          {| world := w;
             calls := calls st ++
               [{| call_request := {| req_method := method; req_resource := res;
                                      req_path := path; req_input := input |};
                   call_data := data; call_err := err |}] |}).

(** The loop [for index, element := range secret.Fields]. *)
Fixpoint fetch_attachments (id : int) (n : nat) (index_ : nat)
    (fields : list SecretField) : M World (list SecretField + error) :=
  match n with
  | O => ret (inl fields)
  | S n' =>
      let* element := index fields index_ in
      if decide (FileAttachmentID element ≠ 0) then
        let path := Itoa id +:+ "/fields/" +:+ Slug element in
        let* (data, err) := access "GET" resource path None in
        match err with
        | None =>
            let* fields := update fields index_ (set_ItemValue (string_of_list_byte data)) in
            fetch_attachments id n' (S index_) fields
        | Some err => ret (inr err)
        end
      else fetch_attachments id n' (S index_) fields
  end.

(** [Secret] gets the secret with [id] from the Secret Server of the given
    tenant. *)
Definition Server_Secret (id : int) : M World (option Secret * option error) :=
  let secret := new_Secret in
  let* (data, err) := access "GET" resource (Itoa id) None in
  match err with
  | None =>
      let '(secret, err) := json_Unmarshal_Secret data secret in
      match err with
      | Some err =>
          ret (None, Some (fmt_Errorf ("parsing response from /" +:+ resource +:+ "/"
                                         +:+ Itoa id +:+ ": " +:+ Error err)))
      | None =>
          let* r := fetch_attachments id (length (Fields secret)) 0 (Fields secret) in
          match r with
          | inl fields => ret (Some (set_Fields fields secret), None)
          | inr err => ret (None, Some err)
          end
      end
  | Some err => ret (None, Some err)
  end.

(** [Field] returns the value of the field with the name [fieldName]. *)
Fixpoint Field_loop (fields : list SecretField) (fieldName : string) : string * bool :=
  match fields with
  | [] => ("", false)
  | field :: rest =>
      if String.eqb fieldName (FieldName field) || String.eqb fieldName (Slug field)
      then (ItemValue field, true)
      else Field_loop rest fieldName
  end.

Definition Secret_Field (s : Secret) (fieldName : string) : string * bool :=
  Field_loop (Fields s) fieldName.

End Server.
End Part000.

(** ** Reference semantics of the attachment loop

    The loop of [Secret] walks the array by index and writes into it; the
    functions below say the same by recursion on the list of fields, and are
    what the properties are read from. *)

Section Reference.
Context {World : Type}.
Variable accessResource :
  string -> string -> string -> option bytes -> World -> (bytes * option error) * World.

(** The request of the attachment fetch for field [f] of secret [id]. *)
Definition attachment_request (id : int) (f : SecretField) : Request :=
  {| req_method := "GET"; req_resource := resource;
     req_path := Itoa id +:+ "/fields/" +:+ Slug f; req_input := None |}.

(** The request of the primary fetch of secret [id]. *)
Definition secret_request (id : int) : Request :=
  {| req_method := "GET"; req_resource := resource;
     req_path := Itoa id; req_input := None |}.

(** The logged primary call of [Secret]. *)
Definition secret_call (id : int) (data : bytes) (err : option error) : Call :=
  {| call_request := secret_request id; call_data := data; call_err := err |}.

(** The message of the decode failure of [Secret]. *)
Definition parse_error (id : int) (e : error) : error :=
  fmt_Errorf ("parsing response from /" +:+ resource +:+ "/" +:+ Itoa id +:+ ": "
                +:+ Error e).

(** The path of the search call of [SecretNameToID]. *)
Definition search_path (name : string) : string :=
  "?" +:+ Values_Encode ({[ "filter.searchFieldSlug" := ["name"];
                            "filter.searchText" := [name];
                            "filter.doNotCalculateTotal" := ["true"] ]}
                         : gmap string (list string)).

(** The request of the search call of [SecretNameToID]. *)
Definition search_request (name : string) : Request :=
  {| req_method := "GET"; req_resource := resource;
     req_path := search_path name; req_input := None |}.

Definition has_attachment (f : SecretField) : Prop := FileAttachmentID f ≠ 0.

#[global] Instance has_attachment_dec f : Decision (has_attachment f).
Proof. unfold has_attachment. apply _. Defined.

Definition with_prefix (pre : list SecretField) (r : list SecretField + error)
  : list SecretField + error :=
  match r with
  | inl fs => inl (pre ++ fs)
  | inr e => inr e
  end.

(** Resolve the attachments of [fields] from left to right in world [w]:
    the fields after substitution or the first error, the calls made, and
    the world afterwards. *)
Fixpoint substitute (id : int) (fields : list SecretField) (w : World)
  : (list SecretField + error) * list Call * World :=
  match fields with
  | [] => (inl [], [], w)
  | f :: fs =>
      if decide (has_attachment f) then
        let '((data, err), w1) :=
          accessResource "GET" resource (Itoa id +:+ "/fields/" +:+ Slug f) None w in
        let c := {| call_request := attachment_request id f;
                    call_data := data; call_err := err |} in
        match err with
        | Some e => (inr e, [c], w1)
        | None =>
            let '(r, cs, w') := substitute id fs w1 in
            (with_prefix [set_ItemValue (string_of_list_byte data) f] r, c :: cs, w')
        end
      else
        let '(r, cs, w') := substitute id fs w in
        (with_prefix [f] r, cs, w')
  end.

(** The accessor, started in [w], answers the calls [cs] in order exactly
    as they are logged, and ends in [w']. *)
Fixpoint answers (w : World) (cs : list Call) (w' : World) : Prop :=
  match cs with
  | [] => w' = w
  | c :: cs =>
      exists w1,
        accessResource (req_method (call_request c)) (req_resource (call_request c))
                       (req_path (call_request c)) (req_input (call_request c)) w
          = ((call_data c, call_err c), w1)
        /\ answers w1 cs w'
  end.

End Reference.

(** ** A scripted server

    A small tenant to run the functions on: the world counts the requests
    served, the answer depends on the path alone, and response bodies are
    stand-ins that the decoders below recognise. *)

Module Demo.

Definition body (s : string) : bytes := list_byte_of_string s.

Definition not_found : error := foreign_error "*errors.errorString" "404 Not Found".

Definition syntax_error : error :=
  foreign_error "*json.SyntaxError" "invalid character '<' looking for beginning of value".

Definition search_for (name : string) : string :=
  "?filter.doNotCalculateTotal=true&filter.searchFieldSlug=name&filter.searchText=" +:+ name.

Definition accessResource (method res path : string) (input : option bytes)
    (served : nat) : (bytes * option error) * nat :=
  let answer :=
    if String.eqb path "5" then (body "secret 5", None)
    else if String.eqb path "7" then (body "secret 7", None)
    else if String.eqb path "7/fields/notes-file" then (body "hello world", None)
    else if String.eqb path "8" then (body "<html>", None)
    else if String.eqb path "9" then (body "secret 9", None)
    else if String.eqb path "9/fields/cert" then (body "-----BEGIN", None)
    else if String.eqb path (search_for "db-creds") then (body "records 10 11", None)
    else if String.eqb path (search_for "web+admin") then (body "records 3", None)
    else if String.eqb path (search_for "nothing") then (body "records", None)
    else ([], Some not_found) in
  (answer, S served).

Definition field (name slug value : string) (attachment : int) : SecretField :=
  {| ItemID := 0; FieldID := 0; FileAttachmentID := attachment;
     FieldDescription := ""; FieldName := name; Filename := "";
     ItemValue := value; Slug := slug;
     IsFile := negb (attachment =? 0); IsNotes := false; IsPassword := false |}.

Definition secret (id : int) (fields : list SecretField) : Secret :=
  {| Name := "demo"; FolderID := 1; ID := id; SiteID := 1;
     SecretTemplateID := 1; SecretPolicyID := 0;
     Active := true; CheckedOut := false; CheckOutEnabled := false;
     Fields := fields |}.

Definition password : SecretField := field "password" "pw" "p@ss" 0.
Definition notes_file : SecretField := field "Notes" "notes-file" "<placeholder>" 42.
Definition cert : SecretField := field "Certificate" "cert" "*** Not Valid For Display ***" 7.
Definition key : SecretField := field "Private Key" "key" "*** Not Valid For Display ***" 8.

Definition json_Unmarshal_Secret (data : bytes) (v : Secret) : Secret * option error :=
  let text := string_of_list_byte data in
  if String.eqb text "secret 5" then (secret 5 [password], None)
  else if String.eqb text "secret 7" then (secret 7 [notes_file], None)
  else if String.eqb text "secret 9" then (secret 9 [password; cert; key], None)
  else (v, Some syntax_error).

Definition found (id : int) (name : string) : record :=
  {| record_ID := id; record_Name := name;
     record_SecretTemplateID := 1; record_SecretTemplateName := "Password" |}.

Definition json_Unmarshal_Records (data : bytes) (v : list record)
    : list record * option error :=
  let text := string_of_list_byte data in
  if String.eqb text "records 10 11" then ([found 10 "db-creds"; found 11 "db-creds"], None)
  else if String.eqb text "records 3" then ([found 3 "web admin"], None)
  else if String.eqb text "records" then ([], None)
  else (v, Some syntax_error).

(** The world before the first request. *)
Definition start : State nat := {| world := 0%nat; calls := [] |}.

Definition call (req : Request) (data : bytes) (err : option error) : Call :=
  {| call_request := req; call_data := data; call_err := err |}.

(** The worlds after fetching secrets 5, 7, 8, 9 and 404 from [start]. *)
Definition after5 : State nat :=
  {| world := 1%nat; calls := [call (secret_request 5) (body "secret 5") None] |}.

Definition after7 : State nat :=
  {| world := 2%nat;
     calls := [call (secret_request 7) (body "secret 7") None;
               call (attachment_request 7 notes_file) (body "hello world") None] |}.

Definition after8 : State nat :=
  {| world := 1%nat; calls := [call (secret_request 8) (body "<html>") None] |}.

Definition secret9_call : Call := call (secret_request 9) (body "secret 9") None.
Definition cert_call : Call := call (attachment_request 9 cert) (body "-----BEGIN") None.
Definition key_call : Call := call (attachment_request 9 key) [] (Some not_found).

Definition after9 : State nat :=
  {| world := 3%nat; calls := [secret9_call; cert_call; key_call] |}.

Definition after404 : State nat :=
  {| world := 1%nat; calls := [call (secret_request 404) [] (Some not_found)] |}.

End Demo.

(** ** Reading a query back

    [unhex] and [QueryUnescape] of [net/url] undo [QueryEscape]; the file
    never calls them, they serve to show that escaping a name loses
    nothing. *)

Definition unhex (c : ascii) : option N :=
  if in_range "0" "9" c then Some (N_of_ascii c - 48)%N
  else if in_range "a" "f" c then Some (N_of_ascii c - 97 + 10)%N
  else if in_range "A" "F" c then Some (N_of_ascii c - 65 + 10)%N
  else None.

Fixpoint QueryUnescape (s : string) : option string :=
  match s with
  | EmptyString => Some EmptyString
  | String c s' =>
      if Ascii.eqb c "%" then
        match s' with
        | String h (String l s'') =>
            match unhex h, unhex l with
            | Some a, Some b =>
                option_map (String (ascii_of_N (16 * a + b))) (QueryUnescape s'')
            | _, _ => None
            end
        | _ => None
        end
      else if Ascii.eqb c "+" then option_map (String " ") (QueryUnescape s')
      else option_map (String c) (QueryUnescape s')
  end.

(** How often the byte [c] occurs in [s]. *)
Fixpoint count_char (c : ascii) (s : string) : nat :=
  match s with
  | EmptyString => 0%nat
  | String c' s' => ((if Ascii.eqb c c' then 1 else 0) + count_char c s')%nat
  end.

(** ** A server that never fails

    Every path is answered with its own bytes, and every body decodes to the
    same secret of three fields. *)

Module Mirror.

Definition accessResource (method res path : string) (input : option bytes)
    (served : nat) : (bytes * option error) * nat :=
  ((list_byte_of_string path, None), S served).

Definition json_Unmarshal_Secret (data : bytes) (v : Secret) : Secret * option error :=
  (Demo.secret 9 [Demo.password; Demo.cert; Demo.key], None).

End Mirror.

(** ** Properties *)

Section Properties.
Context {World : Type}.
Variable accessResource :
  string -> string -> string -> option bytes -> World -> (bytes * option error) * World.
Variable json_Unmarshal_Secret : bytes -> Secret -> Secret * option error.
Variable json_Unmarshal_Records : bytes -> list record -> list record * option error.

Abbreviation fetch_attachments := (fetch_attachments accessResource).
Abbreviation substitute := (substitute accessResource).
Abbreviation answers := (answers accessResource).
Abbreviation Server_Secret := (Server_Secret accessResource json_Unmarshal_Secret).
Abbreviation Server_SecretNameToID :=
  (Server_SecretNameToID accessResource json_Unmarshal_Records).

Implicit Types (st : State World) (w : World) (fields fs : list SecretField)
  (f : SecretField) (cs : list Call) (id : int) (e : error).

(** *** The monad *)

Lemma state_eta st : {| world := world st; calls := calls st |} = st.
Proof. by destruct st. Qed.

Lemma access_run method res path input st data err w1 :
  accessResource method res path input (world st) = ((data, err), w1) ->
  access accessResource method res path input st =
    Some ((data, err),
          {| world := w1;
             calls := calls st ++
               [{| call_request := {| req_method := method; req_resource := res;
                                      req_path := path; req_input := input |};
                   call_data := data; call_err := err |}] |}).
Proof. intros H. unfold access. by rewrite H. Qed.

Lemma index_run {A} (l : list A) i x st :
  l !! i = Some x -> index l i st = Some (x, st).
Proof. intros H. unfold index. by rewrite H. Qed.

Lemma update_run {A} (l : list A) i (g : A -> A) st :
  (i < length l)%nat -> update l i g st = Some (alter g i l, st).
Proof. intros H. unfold update. by rewrite decide_True. Qed.

Lemma store_run {A} (l : list A) i (v : A) st :
  (i < length l)%nat -> store l i v st = Some (<[i := v]> l, st).
Proof. intros H. unfold store. by rewrite decide_True. Qed.

(** *** The attachment loop is the reference semantics *)

Lemma with_prefix_app pre1 pre2 r :
  with_prefix (pre1 ++ pre2) r = with_prefix pre1 (with_prefix pre2 r).
Proof. destruct r; simpl; by rewrite <- ?(assoc_L (++)). Qed.

Lemma with_prefix_nil r : with_prefix [] r = r.
Proof. by destruct r. Qed.

Lemma fetch_attachments_substitute id n i fields st :
  (i + n = length fields)%nat ->
  fetch_attachments id n i fields st =
    let '(r, cs, w') := substitute id (drop i fields) (world st) in
    Some (with_prefix (take i fields) r, {| world := w'; calls := calls st ++ cs |}).
Proof.
  revert i fields st. induction n as [|n IH]; intros i fields st Hlen.
  - rewrite drop_ge, take_ge by lia. simpl.
    by rewrite !(right_id_L [] (++)), state_eta.
  - destruct (lookup_lt_is_Some_2 fields i) as [f Hf]; [lia|].
    rewrite (drop_S _ _ _ Hf). simpl. unfold bind at 1.
    rewrite (index_run _ _ _ _ Hf).
    destruct (decide (has_attachment f)) as [Hatt|Hatt];
      destruct (decide (FileAttachmentID f ≠ 0)) as [Hne|Hne];
      try (exfalso; unfold has_attachment in *; tauto).
    + unfold bind at 1.
      destruct (accessResource "GET" resource (Itoa id +:+ "/fields/" +:+ Slug f)
                  None (world st)) as [[data err] w1] eqn:Hacc.
      rewrite (access_run _ _ _ _ _ _ _ _ Hacc).
      destruct err as [e|]; [reflexivity|].
      unfold bind at 1. rewrite update_run by lia.
      rewrite IH by (rewrite length_alter; lia). simpl.
      rewrite drop_alter_lt by lia.
      destruct (substitute id (drop (S i) fields) w1) as [[r cs] w'].
      rewrite take_alter_lt, (take_S_r _ _ _ Hf) by lia.
      rewrite alter_app_r_alt by (rewrite length_take; lia).
      rewrite length_take, Nat.min_l, Nat.sub_diag by lia. simpl.
      by rewrite with_prefix_app, <- (assoc_L (++)).
    + rewrite IH by lia.
      destruct (substitute id (drop (S i) fields) (world st)) as [[r cs] w'].
      by rewrite (take_S_r _ _ _ Hf), with_prefix_app.
Qed.

(** *** What the reference semantics guarantees *)

Lemma substitute_cons id f fs w r cs w' :
  substitute id (f :: fs) w = (r, cs, w') ->
  (~ has_attachment f /\
     exists r0, substitute id fs w = (r0, cs, w') /\ r = with_prefix [f] r0)
  \/ (has_attachment f /\ exists data err w1,
        accessResource "GET" resource (Itoa id +:+ "/fields/" +:+ Slug f) None w
          = ((data, err), w1) /\
        let c := {| call_request := attachment_request id f;
                    call_data := data; call_err := err |} in
        match err with
        | Some e => r = inr e /\ cs = [c] /\ w' = w1
        | None => exists r0 cs0,
            substitute id fs w1 = (r0, cs0, w') /\ cs = c :: cs0 /\
            r = with_prefix [set_ItemValue (string_of_list_byte data) f] r0
        end).
Proof.
  simpl. destruct (decide (has_attachment f)) as [Hatt|Hatt].
  - destruct (accessResource _ _ _ _ w) as [[data err] w1] eqn:Hacc.
    intros H. right. split; [done|]. exists data, err, w1. split; [done|].
    destruct err as [e|].
    + by inversion H.
    + destruct (substitute id fs w1) as [[r0 cs0] w0]. inversion H; subst. eauto.
  - destruct (substitute id fs w) as [[r0 cs0] w0]. intros H. inversion H; subst.
    left. eauto.
Qed.

(** The log of the loop is what the accessor really answered. *)
Lemma substitute_answers id fs w r cs w' :
  substitute id fs w = (r, cs, w') -> answers w cs w'.
Proof.
  revert w r cs w'. induction fs as [|f fs IH]; intros w r cs w' H.
  - by inversion H.
  - apply substitute_cons in H as [(_ & r0 & H & _)|(_ & data & err & w1 & Hacc & H)].
    + eauto.
    + destruct err as [e|].
      * destruct H as (_ & -> & ->). simpl. eauto.
      * destruct H as (r0 & cs0 & H & -> & _). simpl. eauto.
  Qed.

(** On success: every field with an attachment carries, as its [ItemValue],
    the bytes of its own call, and the calls are those and no others. *)
Lemma substitute_inl_calls id fs w fs' cs w' :
  substitute id fs w = (inl fs', cs, w') ->
  Forall2 (fun f' c => call_request c = attachment_request id f' /\
                       call_err c = None /\
                       ItemValue f' = string_of_list_byte (call_data c))
          (filter has_attachment fs') cs.
Proof.
  revert w fs' cs w'. induction fs as [|f fs IH]; intros w fs' cs w' H.
  - inversion H. constructor.
  - apply substitute_cons in H as [(Hatt & r0 & H & Hr)|(Hatt & data & err & w1 & _ & H)].
    + destruct r0 as [fs0|]; [|done]. inversion Hr; subst. simpl.
      rewrite filter_cons_False by done. eauto.
    + destruct err as [e|]; [by destruct H|].
      destruct H as (r0 & cs0 & H & -> & Hr).
      destruct r0 as [fs0|]; [|done]. inversion Hr; subst. simpl.
      rewrite filter_cons_True by done. constructor; eauto.
Qed.

(** On success: the array keeps its shape, only [ItemValue]s of fields with
    an attachment may differ. *)
Lemma substitute_inl_fields id fs w fs' cs w' :
  substitute id fs w = (inl fs', cs, w') ->
  Forall2 (fun f f' => if decide (has_attachment f)
                       then f' = set_ItemValue (ItemValue f') f
                       else f' = f) fs fs'.
Proof.
  revert w fs' cs w'. induction fs as [|f fs IH]; intros w fs' cs w' H.
  - inversion H. constructor.
  - apply substitute_cons in H as [(Hatt & r0 & H & Hr)|(Hatt & data & err & w1 & _ & H)].
    + destruct r0 as [fs0|]; [|done]. inversion Hr; subst. simpl.
      constructor; [by rewrite decide_False|eauto].
    + destruct err as [e|]; [by destruct H|].
      destruct H as (r0 & cs0 & H & -> & Hr).
      destruct r0 as [fs0|]; [|done]. inversion Hr; subst. simpl.
      constructor; [by rewrite decide_True|eauto].
Qed.

(** In every outcome the calls are requests for fields with an attachment,
    in field order. *)
Lemma substitute_requests id fs w r cs w' :
  substitute id fs w = (r, cs, w') ->
  (call_request <$> cs) `prefix_of` (attachment_request id <$> filter has_attachment fs).
Proof.
  revert w r cs w'. induction fs as [|f fs IH]; intros w r cs w' H.
  - inversion H. done.
  - apply substitute_cons in H as [(Hatt & r0 & H & Hr)|(Hatt & data & err & w1 & _ & H)].
    + rewrite filter_cons_False by done. eauto.
    + rewrite filter_cons_True by done. destruct err as [e|].
      * destruct H as (_ & -> & _). simpl. apply prefix_cons, prefix_nil.
      * destruct H as (r0 & cs0 & H & -> & _). simpl. apply prefix_cons. eauto.
Qed.

(** A call that failed is the last one, and its error is the result. *)
Lemma substitute_failed_call id fs w r cs w' c e :
  substitute id fs w = (r, cs, w') ->
  c ∈ cs -> call_err c = Some e ->
  r = inr e /\ exists cs0, cs = cs0 ++ [c].
Proof.
  revert w r cs w'. induction fs as [|f fs IH]; intros w r cs w' H Hin He.
  - inversion H; subst. by apply elem_of_nil in Hin.
  - apply substitute_cons in H as [(Hatt & r0 & H & Hr)|(Hatt & data & err & w1 & _ & H)].
    + destruct (IH _ _ _ _ H Hin He) as [-> ?]. by subst.
    + destruct err as [e'|].
      * destruct H as (-> & -> & _). apply list_elem_of_singleton in Hin. subst c.
        simpl in He. inversion He; subst. split; [done|]. by exists [].
      * destruct H as (r0 & cs0 & H & -> & ->).
        apply elem_of_cons in Hin as [->|Hin]; [done|].
        destruct (IH _ _ _ _ H Hin He) as [-> [cs1 ->]].
        split; [done|]. by eexists (_ :: cs1).
Qed.

(** An error result comes from a failed call, the last of the log. *)
Lemma substitute_inr id fs w e cs w' :
  substitute id fs w = (inr e, cs, w') ->
  exists cs0 c, cs = cs0 ++ [c] /\ call_err c = Some e /\
                Forall (fun c0 => call_err c0 = None) cs0.
Proof.
  revert w cs w'. induction fs as [|f fs IH]; intros w cs w' H.
  - inversion H.
  - apply substitute_cons in H as [(Hatt & r0 & H & Hr)|(Hatt & data & err & w1 & _ & H)].
    + destruct r0 as [|e0]; [done|]. inversion Hr; subst. eauto.
    + destruct err as [e'|].
      * destruct H as (Hr & -> & _). inversion Hr; subst.
        exists []. eexists. by repeat split.
      * destruct H as (r0 & cs0 & H & -> & Hr).
        destruct r0 as [|e0]; [done|]. inversion Hr; subst.
        destruct (IH _ _ _ H) as (cs1 & c & -> & Hc & Hall).
        exists ({| call_request := attachment_request id f;
                   call_data := data; call_err := None |} :: cs1), c.
        repeat split; [done|]. by constructor.
Qed.

(** *** [Secret], unfolded once and for all *)

Lemma Server_Secret_run id st :
  Server_Secret id st =
    let '((data, err), w1) := accessResource "GET" resource (Itoa id) None (world st) in
    match err with
    | Some e =>
        Some ((None, Some e),
              {| world := w1; calls := calls st ++ [secret_call id data err] |})
    | None =>
        let '(secret, uerr) := json_Unmarshal_Secret data new_Secret in
        match uerr with
        | Some e =>
            Some ((None, Some (parse_error id e)),
                  {| world := w1; calls := calls st ++ [secret_call id data err] |})
        | None =>
            let '(r, cs, w') := substitute id (Fields secret) w1 in
            Some (match r with
                  | inl fs' => (Some (set_Fields fs' secret), None)
                  | inr e => (None, Some e)
                  end,
                  {| world := w'; calls := calls st ++ secret_call id data err :: cs |})
        end
    end.
Proof.
  unfold Server_Secret, bind.
  destruct (accessResource "GET" resource (Itoa id) None (world st))
    as [[data err] w1] eqn:Hacc.
  rewrite (access_run _ _ _ _ _ _ _ _ Hacc).
  destruct err as [e|]; [done|].
  destruct (json_Unmarshal_Secret data new_Secret) as [secret [e|]]; [done|].
  rewrite fetch_attachments_substitute by (simpl; lia).
  rewrite drop_0, take_0. cbn [world calls].
  destruct (substitute id (Fields secret) w1) as [[r cs] w'].
  rewrite with_prefix_nil, <- (assoc_L (++)). by destruct r.
Qed.

(** [Secret] always returns: no index of its loop is out of range. *)
Lemma Server_Secret_total id st :
  exists res st', Server_Secret id st = Some (res, st').
Proof.
  rewrite Server_Secret_run.
  destruct (accessResource _ _ _ _ _) as [[data [e|]] w1]; [eauto|].
  destruct (json_Unmarshal_Secret _ _) as [secret [e|]]; [eauto|].
  destruct (substitute _ _ _) as [[r cs] w']. eauto.
Qed.

(** What a finished run of [Secret] went through: the primary call, and,
    when it and the decoding succeeded, the reference semantics of the loop
    on the decoded fields. *)
Lemma Server_Secret_inv id st res st' :
  Server_Secret id st = Some (res, st') ->
  exists data err w1,
    accessResource "GET" resource (Itoa id) None (world st) = ((data, err), w1) /\
    match err with
    | Some e => res = (None, Some e) /\ world st' = w1 /\
                calls st' = calls st ++ [secret_call id data err]
    | None =>
        exists secret uerr, json_Unmarshal_Secret data new_Secret = (secret, uerr) /\
        match uerr with
        | Some e => res = (None, Some (parse_error id e)) /\ world st' = w1 /\
                    calls st' = calls st ++ [secret_call id data err]
        | None =>
            exists r cs, substitute id (Fields secret) w1 = (r, cs, world st') /\
              calls st' = calls st ++ secret_call id data err :: cs /\
              res = match r with
                    | inl fs' => (Some (set_Fields fs' secret), None)
                    | inr e => (None, Some e)
                    end
        end
    end.
Proof.
  rewrite Server_Secret_run.
  destruct (accessResource _ _ _ _ _) as [[data [e|]] w1]; intros H.
  - inversion H; subst. exists data, (Some e), w1. eauto.
  - exists data, None, w1. split; [done|].
    destruct (json_Unmarshal_Secret _ _) as [secret [e|]].
    + inversion H; subst. exists secret, (Some e). eauto.
    + exists secret, None. split; [done|].
      destruct (substitute _ _ _) as [[r cs] w'] eqn:Hsub. inversion H; subst.
      exists r, cs. eauto.
Qed.

(** *** The loop of [SecretNameToID] *)

Lemma collect_IDs_run n i (Records : list record) (ids : list int) st :
  (i + n = length Records)%nat -> length ids = length Records ->
  collect_IDs n i Records ids st =
    Some (take i ids ++ (record_ID <$> drop i Records), st).
Proof.
  revert i ids. induction n as [|n IH]; intros i ids Hn Hlen.
  - rewrite drop_ge, take_ge by lia. simpl. by rewrite (right_id_L [] (++)).
  - destruct (lookup_lt_is_Some_2 Records i) as [r Hr]; [lia|].
    simpl. unfold bind. rewrite (index_run _ _ _ _ Hr), store_run by lia.
    rewrite IH by (rewrite ?length_insert; lia).
    rewrite (drop_S _ _ _ Hr), fmap_cons.
    destruct (lookup_lt_is_Some_2 ids i) as [v Hv]; [lia|].
    rewrite take_insert_lt, (take_S_r _ _ _ Hv) by lia.
    rewrite insert_app_r_alt by (rewrite length_take; lia).
    rewrite length_take, Nat.min_l, Nat.sub_diag by lia. simpl.
    by rewrite <- (assoc_L (++)).
Qed.

(** The search call of [SecretNameToID]. *)
Lemma search_filter_encoded (name : string) :
  Values_Encode ({[ "filter.searchFieldSlug" := ["name"];
                    "filter.searchText" := [name];
                    "filter.doNotCalculateTotal" := ["true"] ]} : gmap string (list string))
  = "filter.doNotCalculateTotal=true&filter.searchFieldSlug=name&filter.searchText="
      +:+ QueryEscape name.
Proof. vm_compute. reflexivity. Qed.

Lemma Server_SecretNameToID_run name st :
  Server_SecretNameToID name st =
    let '((data, err), w1) :=
      accessResource "GET" resource (search_path name) None (world st) in
    Some (match err with
          | Some e =>
              (0, Some (fmt_Errorf ("accessing resource " +:+ resource +:+ ": "
                                      +:+ Error e)))
          | None =>
              let '(Records, uerr) := json_Unmarshal_Records data [] in
              match uerr with
              | Some e => (0, Some (fmt_Errorf ("unmarshaling response: " +:+ Error e)))
              | None =>
                  match Records with
                  | [] => (0, Some (fmt_Errorf ("no secrets found with name '"
                                                  +:+ name +:+ "'")))
                  | [r] => (record_ID r, None)
                  | _ => (0, Some (MultipleSecretsFound
                                     {| IDs := record_ID <$> Records;
                                        searchedName := name |}))
                  end
              end
          end,
          {| world := w1;
             calls := calls st ++
               [{| call_request := search_request name;
                   call_data := data; call_err := err |}] |}).
Proof.
  unfold Server_SecretNameToID, bind. fold (search_path name).
  destruct (accessResource "GET" resource (search_path name) None (world st))
    as [[data err] w1] eqn:Hacc.
  rewrite (access_run _ _ _ _ _ _ _ _ Hacc). fold (search_request name).
  destruct err as [e|]; [done|].
  destruct (json_Unmarshal_Records data []) as [Records [e|]]; [done|].
  destruct Records as [|r [|r' Records]].
  - rewrite decide_False, decide_True by (simpl; lia). done.
  - rewrite !decide_False by (simpl; lia). done.
  - rewrite decide_True by (simpl; lia).
    rewrite collect_IDs_run by (rewrite ?length_replicate; simpl; lia). done.
Qed.

(** *** Fields without an attachment *)

Lemma set_Fields_same (s : Secret) : set_Fields (Fields s) s = s.
Proof. by destruct s. Qed.

Lemma substitute_plain id fs w :
  Forall (fun f => FileAttachmentID f = 0) fs ->
  substitute id fs w = (inl fs, [], w).
Proof.
  induction 1 as [|f fs Hf _ IH]; [done|]. simpl.
  rewrite decide_False by (unfold has_attachment; tauto). by rewrite IH.
Qed.

Lemma substitute_inl_plain id fs w fs' cs w' i f :
  substitute id fs w = (inl fs', cs, w') ->
  fs !! i = Some f -> FileAttachmentID f = 0 -> fs' !! i = Some f.
Proof.
  intros H Hi Hf. apply substitute_inl_fields in H.
  destruct (Forall2_lookup_l _ _ _ _ _ H Hi) as (f' & Hi' & Hff').
  rewrite decide_False in Hff' by (unfold has_attachment; tauto). by subst.
Qed.

(** *** The secret fetch *)

(** C1. When [Secret] succeeds, the log shows the primary call followed by
    one call per returned field with a non-zero [FileAttachmentID], in field
    order; each is the GET on [{id}/fields/{slug}] of its field, the accessor
    answered it without error, and the field's [ItemValue] is the text of
    the bytes it answered. So every such field carries the fetched content
    and never the value decoded from the primary response. *)
Theorem Secret_attachments_substituted id st secret err st' :
  Server_Secret id st = Some ((Some secret, err), st') ->
  exists data cs,
    calls st' = calls st ++ secret_call id data None :: cs /\
    answers (world st) (secret_call id data None :: cs) (world st') /\
    Forall2 (fun f c => call_request c = attachment_request id f /\
                        call_err c = None /\
                        ItemValue f = string_of_list_byte (call_data c))
            (filter has_attachment (Fields secret)) cs /\
    (forall f, f ∈ Fields secret -> FileAttachmentID f ≠ 0 ->
       exists c, c ∈ cs /\ call_request c = attachment_request id f /\
                 call_err c = None /\
                 ItemValue f = string_of_list_byte (call_data c)).
Proof.
  intros H. apply Server_Secret_inv in H as (data & perr & w1 & Hacc & H).
  destruct perr as [e|]; [by destruct H|].
  destruct H as (decoded & uerr & Hdec & H).
  destruct uerr as [e|]; [by destruct H|].
  destruct H as (r & cs & Hsub & Hcalls & Hres).
  destruct r as [fs'|e]; [|done]. inversion Hres; subst. clear Hres.
  exists data, cs. split; [done|].
  assert (Hall := substitute_inl_calls _ _ _ _ _ _ Hsub).
  repeat split.
  - simpl. exists w1. split; [done|]. by eapply substitute_answers.
  - done.
  - simpl. intros f Hin Hf.
    assert (f ∈ filter has_attachment fs') as Hin' by (by apply list_elem_of_filter).
    apply list_elem_of_lookup in Hin' as [i Hi].
    destruct (Forall2_lookup_l _ _ _ _ _ Hall Hi) as (c & Hc & HP).
    exists c. split; [|done]. apply list_elem_of_lookup. eauto.
Qed.

(** C2. [Secret] always returns, and if any call it made after the primary
    one (an attachment fetch) came back with an error, it returned the nil
    secret together with exactly that error, and that call was the last one
    it made. *)
Theorem Secret_attachment_failure id st :
  exists res st',
    Server_Secret id st = Some (res, st') /\
    forall c0 cs c e,
      calls st' = calls st ++ c0 :: cs ->
      c ∈ cs -> call_err c = Some e ->
      res = (None, Some e) /\ exists cs0, cs = cs0 ++ [c].
Proof.
  destruct (Server_Secret_total id st) as (res & st' & H).
  exists res, st'. split; [done|]. intros c0 cs c e Hcalls Hin He.
  apply Server_Secret_inv in H as (data & perr & w1 & Hacc & H).
  destruct perr as [e0|].
  { destruct H as (_ & _ & Hc). rewrite Hc in Hcalls.
    apply (inj (app (calls st))) in Hcalls. inversion Hcalls; subst.
    by apply elem_of_nil in Hin. }
  destruct H as (decoded & uerr & Hdec & H). destruct uerr as [e0|].
  { destruct H as (_ & _ & Hc). rewrite Hc in Hcalls.
    apply (inj (app (calls st))) in Hcalls. inversion Hcalls; subst.
    by apply elem_of_nil in Hin. }
  destruct H as (r & cs1 & Hsub & Hc & Hres). rewrite Hc in Hcalls.
  apply (inj (app (calls st))) in Hcalls. inversion Hcalls; subst.
  destruct (substitute_failed_call _ _ _ _ _ _ _ _ Hsub Hin He) as [-> Hlast].
  done.
Qed.

(** C7. When the primary call and the decoding succeed, [Secret] returns;
    its calls after the primary one are requests for fields with a non-zero
    [FileAttachmentID] only (a prefix, in field order, of the requests of
    those fields), and on success every decoded field whose
    [FileAttachmentID] is 0 is returned as it was decoded, at the same index.
    In particular a secret decoded with the single field
    [{FieldName: password, ItemValue: p@ss, FileAttachmentID: 0}] is returned
    as decoded, after the primary call alone. *)
Theorem Secret_plain_fields_kept id st data w1 decoded :
  accessResource "GET" resource (Itoa id) None (world st) = ((data, None), w1) ->
  json_Unmarshal_Secret data new_Secret = (decoded, None) ->
  exists res st' cs,
    Server_Secret id st = Some (res, st') /\
    calls st' = calls st ++ secret_call id data None :: cs /\
    (call_request <$> cs)
      `prefix_of` (attachment_request id <$> filter has_attachment (Fields decoded)) /\
    (forall secret, res.1 = Some secret ->
       forall i f, Fields decoded !! i = Some f -> FileAttachmentID f = 0 ->
                   Fields secret !! i = Some f) /\
    (forall f, Fields decoded = [f] -> FieldName f = "password" ->
               ItemValue f = "p@ss" -> FileAttachmentID f = 0 ->
               cs = [] /\
               exists secret f', res = (Some secret, None) /\ Fields secret = [f'] /\
                                 FieldName f' = "password" /\ ItemValue f' = "p@ss" /\
                                 FileAttachmentID f' = 0).
Proof.
  intros Hacc Hdec. rewrite Server_Secret_run, Hacc, Hdec.
  destruct (substitute id (Fields decoded) w1) as [[r cs] w'] eqn:Hsub.
  eexists _, _, cs. split; [done|]. split; [done|]. split; [|split].
  - by eapply substitute_requests.
  - intros secret Hres i f Hi Hf. destruct r as [fs'|e]; [|done].
    simpl in Hres. inversion Hres; subst. simpl.
    by eapply substitute_inl_plain.
  - intros f Hfs Hname Hvalue Hf. rewrite Hfs, substitute_plain in Hsub
      by (by repeat constructor).
    inversion Hsub; subst. split; [done|]. by exists (set_Fields [f] decoded), f.
Qed.

(** C8. If the primary GET succeeds and the decoding of its bytes fails with
    [e], [Secret] returns nil and the error with message
    [parsing response from /secrets/{id}: {e}]; if the primary GET fails
    with [e], [Secret] returns nil and [e] itself. *)
Theorem Secret_primary_errors id st :
  (forall data w1 partial e,
     accessResource "GET" resource (Itoa id) None (world st) = ((data, None), w1) ->
     json_Unmarshal_Secret data new_Secret = (partial, Some e) ->
     exists st',
       Server_Secret id st =
         Some ((None, Some (fmt_Errorf ("parsing response from /secrets/" +:+ Itoa id
                                          +:+ ": " +:+ Error e))), st'))
  /\ (forall data w1 e,
        accessResource "GET" resource (Itoa id) None (world st) = ((data, Some e), w1) ->
        exists st', Server_Secret id st = Some ((None, Some e), st')).
Proof.
  split.
  - intros data w1 partial e Hacc Hdec. rewrite Server_Secret_run, Hacc, Hdec. eauto.
  - intros data w1 e Hacc. rewrite Server_Secret_run, Hacc. eauto.
Qed.

(** *** The name search *)

(** C3. If the search call succeeds and its response decodes to two or more
    records, [SecretNameToID] returns 0 and the [MultipleSecretsFoundError]
    whose [IDs] are the [ID]s of all the records in response order and whose
    [searchedName] is the name given. *)
Theorem SecretNameToID_multiple name st data w1 (Records : list record) :
  accessResource "GET" resource (search_path name) None (world st) = ((data, None), w1) ->
  json_Unmarshal_Records data [] = (Records, None) ->
  (2 <= length Records)%nat ->
  exists st',
    Server_SecretNameToID name st =
      Some ((0, Some (MultipleSecretsFound {| IDs := record_ID <$> Records;
                                              searchedName := name |})), st').
Proof.
  intros Hacc Hdec Hlen. rewrite Server_SecretNameToID_run, Hacc, Hdec.
  destruct Records as [|r [|r' Records]]; simpl in Hlen; [lia|lia|]. eauto.
Qed.

(** C4. If the search call succeeds and its response decodes to exactly one
    record, [SecretNameToID] returns the [ID] of that record and a nil
    error. *)
Theorem SecretNameToID_single name st data w1 (Records : list record) r :
  accessResource "GET" resource (search_path name) None (world st) = ((data, None), w1) ->
  json_Unmarshal_Records data [] = (Records, None) ->
  length Records = 1%nat -> Records !! 0%nat = Some r ->
  exists st', Server_SecretNameToID name st = Some ((record_ID r, None), st').
Proof.
  intros Hacc Hdec Hlen Hr. rewrite Server_SecretNameToID_run, Hacc, Hdec.
  destruct Records as [|r0 [|r' Records]]; simpl in Hlen; [lia| |lia].
  inversion Hr; subst. eauto.
Qed.

(** C5. If the search call succeeds and its response decodes to no record,
    [SecretNameToID] returns 0 and an error made by [fmt.Errorf] whose
    message is [no secrets found with name '{name}']; that error is not a
    [MultipleSecretsFoundError]. *)
Theorem SecretNameToID_none name st data w1 (Records : list record) :
  accessResource "GET" resource (search_path name) None (world st) = ((data, None), w1) ->
  json_Unmarshal_Records data [] = (Records, None) ->
  length Records = 0%nat ->
  exists st' err,
    Server_SecretNameToID name st = Some ((0, Some err), st') /\
    err = fmt_Errorf ("no secrets found with name '" +:+ name +:+ "'") /\
    Error err = "no secrets found with name '" +:+ name +:+ "'" /\
    is_MultipleSecretsFoundError err = false.
Proof.
  intros Hacc Hdec Hlen. rewrite Server_SecretNameToID_run, Hacc, Hdec.
  destruct Records; [|done]. eauto 10.
Qed.


(** *** The field lookup *)

Lemma Field_loop_none (fields : list SecretField) (fieldName : string) :
  (forall g, g ∈ fields -> fieldName ≠ FieldName g /\ fieldName ≠ Slug g) ->
  Field_loop fields fieldName = ("", false).
Proof.
  induction fields as [|g fields IH]; intros H; [done|]. simpl.
  destruct (H g) as [Hn Hs]; [by left|].
  apply String.eqb_neq in Hn, Hs. rewrite Hn, Hs. simpl.
  apply IH. intros g' Hg'. apply H. by right.
Qed.

Lemma Field_loop_app pre rest fieldName :
  (forall g, g ∈ pre -> fieldName ≠ FieldName g /\ fieldName ≠ Slug g) ->
  Field_loop (pre ++ rest) fieldName = Field_loop rest fieldName.
Proof.
  induction pre as [|g pre IH]; intros H; [done|]. simpl.
  destruct (H g) as [Hn Hs]; [by left|].
  apply String.eqb_neq in Hn, Hs. rewrite Hn, Hs. simpl.
  apply IH. intros g' Hg'. apply H. by right.
Qed.

(** C6. [Field] returns [(ItemValue f, true)] for the first field [f], in the
    order of [Fields], whose [FieldName] or [Slug] is equal to [fieldName]
    (equal as strings, byte for byte), and [("", false)] when no field has
    [fieldName] as its [FieldName] or [Slug]. *)
Theorem Field_first_match (s : Secret) (fieldName : string) :
  (forall pre f post,
     Fields s = pre ++ f :: post ->
     (forall g, g ∈ pre -> fieldName ≠ FieldName g /\ fieldName ≠ Slug g) ->
     fieldName = FieldName f \/ fieldName = Slug f ->
     Secret_Field s fieldName = (ItemValue f, true))
  /\ ((forall g, g ∈ Fields s -> fieldName ≠ FieldName g /\ fieldName ≠ Slug g) ->
      Secret_Field s fieldName = ("", false)).
Proof.
  unfold Secret_Field. split.
  - intros pre f post -> Hpre Hf. rewrite Field_loop_app by done. simpl.
    destruct Hf as [->| ->]; rewrite String.eqb_refl; [done|].
    by rewrite orb_true_r.
  - apply Field_loop_none.
Qed.

(** *** The earlier revision *)

(** C10. The secret fetch and the field lookup of the earlier revision of
    the file return what [Secret] and [Field] of secret.go return: the same
    result, the same error, the same calls of the accessor, whatever the
    accessor and the decoder do. *)
Theorem Part000_equivalent :
  (forall id st,
     Part000.Server_Secret accessResource json_Unmarshal_Secret id st
     = Server_Secret id st)
  /\ (forall (s : Secret) (fieldName : string),
        Part000.Secret_Field s fieldName = Secret_Field s fieldName).
Proof.
  split.
  - intros id st. unfold Part000.Server_Secret. reflexivity.
  - intros s fieldName. unfold Part000.Secret_Field, Secret_Field.
    induction (Fields s) as [|f fs IH]; [done|]. simpl. by rewrite IH.
Qed.

End Properties.

(** ** The properties at work on the scripted server *)

Example Itoa_negative : Itoa (-404) = "-404".
Proof. reflexivity. Qed.

Example QueryEscape_reserved : QueryEscape "a b&c=d/~-_.%" = "a+b%26c%3Dd%2F~-_.%25".
Proof. reflexivity. Qed.

Example search_path_web_admin :
  search_path "web admin" = Demo.search_for "web+admin".
Proof. vm_compute. reflexivity. Qed.

Example MultipleSecretsFoundError_message :
  Error (MultipleSecretsFound {| IDs := [10; 11]; searchedName := "db-creds" |})
  = "multiple (2) secrets found with name db-creds".
Proof. reflexivity. Qed.

(** Secret 7, with its one attachment, run end to end. *)
Example Secret_7_runs :
  Server_Secret Demo.accessResource Demo.json_Unmarshal_Secret 7 Demo.start
  = Some ((Some (Demo.secret 7 [Demo.field "Notes" "notes-file" "hello world" 42]), None),
          Demo.after7).
Proof. reflexivity. Qed.

(** The earlier revision on the same input. *)
Example Part000_Secret_9_runs :
  Part000.Server_Secret Demo.accessResource Demo.json_Unmarshal_Secret 9 Demo.start
  = Some ((None, Some Demo.not_found), Demo.after9).
Proof. reflexivity. Qed.

(** Secret 7 has one attachment; its placeholder is replaced by the fetched
    bytes. *)
Lemma Secret_attachments_substituted_witness :
  Server_Secret Demo.accessResource Demo.json_Unmarshal_Secret 7 Demo.start
    = Some ((Some (Demo.secret 7 [Demo.field "Notes" "notes-file" "hello world" 42]),
             None), Demo.after7)
  /\ exists data cs,
       calls Demo.after7 = calls Demo.start ++ secret_call 7 data None :: cs /\
       answers Demo.accessResource (world Demo.start)
               (secret_call 7 data None :: cs) (world Demo.after7) /\
       Forall2 (fun f c => call_request c = attachment_request 7 f /\
                           call_err c = None /\
                           ItemValue f = string_of_list_byte (call_data c))
               (filter has_attachment
                  (Fields (Demo.secret 7 [Demo.field "Notes" "notes-file" "hello world" 42])))
               cs /\
       (forall f,
          f ∈ Fields (Demo.secret 7 [Demo.field "Notes" "notes-file" "hello world" 42]) ->
          FileAttachmentID f ≠ 0 ->
          exists c, c ∈ cs /\ call_request c = attachment_request 7 f /\
                    call_err c = None /\
                    ItemValue f = string_of_list_byte (call_data c)).
Proof.
  split; [reflexivity|].
  apply (Secret_attachments_substituted Demo.accessResource Demo.json_Unmarshal_Secret
           7 Demo.start _ None Demo.after7).
  reflexivity.
Defined.

(** Secret 9: the certificate is fetched, the fetch of the key fails, and
    nothing but that error is returned. *)
Lemma Secret_attachment_failure_witness :
  Server_Secret Demo.accessResource Demo.json_Unmarshal_Secret 9 Demo.start
    = Some ((None, Some Demo.not_found), Demo.after9)
  /\ calls Demo.after9
      = calls Demo.start ++ Demo.secret9_call :: [Demo.cert_call; Demo.key_call]
  /\ Demo.key_call ∈ [Demo.cert_call; Demo.key_call]
  /\ call_err Demo.key_call = Some Demo.not_found
  /\ exists cs0, [Demo.cert_call; Demo.key_call] = cs0 ++ [Demo.key_call].
Proof.
  assert (Hin : Demo.key_call ∈ [Demo.cert_call; Demo.key_call])
    by apply list_elem_of_further, list_elem_of_here.
  split; [reflexivity|]. split; [reflexivity|]. split; [exact Hin|].
  split; [reflexivity|].
  destruct (Secret_attachment_failure Demo.accessResource Demo.json_Unmarshal_Secret
              9 Demo.start) as (res & st' & Hrun & H).
  assert (Hrun' : Server_Secret Demo.accessResource Demo.json_Unmarshal_Secret
                    9 Demo.start
                  = Some ((None, Some Demo.not_found), Demo.after9)) by reflexivity.
  rewrite Hrun' in Hrun. inversion Hrun; subst res st'.
  apply (H Demo.secret9_call [Demo.cert_call; Demo.key_call] Demo.key_call
           Demo.not_found); [reflexivity|exact Hin|reflexivity].
Defined.

(** Secret 5 is the scenario of the password field. *)
Lemma Secret_plain_fields_kept_witness :
  Demo.accessResource "GET" resource (Itoa 5) None (world Demo.start)
    = ((Demo.body "secret 5", None), 1%nat)
  /\ Demo.json_Unmarshal_Secret (Demo.body "secret 5") new_Secret
      = (Demo.secret 5 [Demo.password], None)
  /\ exists res st' cs,
       Server_Secret Demo.accessResource Demo.json_Unmarshal_Secret 5 Demo.start
         = Some (res, st') /\
       calls st' = calls Demo.start
                     ++ secret_call 5 (Demo.body "secret 5") None :: cs /\
       (call_request <$> cs)
         `prefix_of` (attachment_request 5 <$>
                        filter has_attachment (Fields (Demo.secret 5 [Demo.password]))) /\
       (forall secret, res.1 = Some secret ->
          forall i f, Fields (Demo.secret 5 [Demo.password]) !! i = Some f ->
                      FileAttachmentID f = 0 -> Fields secret !! i = Some f) /\
       (forall f, Fields (Demo.secret 5 [Demo.password]) = [f] ->
                  FieldName f = "password" -> ItemValue f = "p@ss" ->
                  FileAttachmentID f = 0 ->
                  cs = [] /\
                  exists secret f',
                    res = (Some secret, None) /\ Fields secret = [f'] /\
                    FieldName f' = "password" /\ ItemValue f' = "p@ss" /\
                    FileAttachmentID f' = 0).
Proof.
  split; [reflexivity|]. split; [reflexivity|].
  apply (Secret_plain_fields_kept Demo.accessResource Demo.json_Unmarshal_Secret
           5 Demo.start (Demo.body "secret 5") 1%nat (Demo.secret 5 [Demo.password]));
    reflexivity.
Defined.

(** Secret 8 answers with a page that is no JSON; secret 404 does not
    exist. *)
Lemma Secret_primary_errors_witness :
  (Demo.accessResource "GET" resource (Itoa 8) None (world Demo.start)
     = ((Demo.body "<html>", None), 1%nat)
   /\ Demo.json_Unmarshal_Secret (Demo.body "<html>") new_Secret
       = (new_Secret, Some Demo.syntax_error)
   /\ exists st',
        Server_Secret Demo.accessResource Demo.json_Unmarshal_Secret 8 Demo.start
        = Some ((None,
                 Some (fmt_Errorf ("parsing response from /secrets/" +:+ Itoa 8 +:+ ": "
                                     +:+ Error Demo.syntax_error))), st'))
  /\ (Demo.accessResource "GET" resource (Itoa 404) None (world Demo.start)
       = (([], Some Demo.not_found), 1%nat)
     /\ exists st',
          Server_Secret Demo.accessResource Demo.json_Unmarshal_Secret 404 Demo.start
          = Some ((None, Some Demo.not_found), st')).
Proof.
  split.
  - split; [reflexivity|]. split; [reflexivity|].
    apply (proj1 (Secret_primary_errors Demo.accessResource Demo.json_Unmarshal_Secret
                    8 Demo.start)
             (Demo.body "<html>") 1%nat new_Secret Demo.syntax_error); reflexivity.
  - split; [reflexivity|].
    apply (proj2 (Secret_primary_errors Demo.accessResource Demo.json_Unmarshal_Secret
                    404 Demo.start)
             [] 1%nat Demo.not_found); reflexivity.
Defined.

(** Two secrets are named db-creds. *)
Lemma SecretNameToID_multiple_witness :
  Demo.accessResource "GET" resource (search_path "db-creds") None (world Demo.start)
    = ((Demo.body "records 10 11", None), 1%nat)
  /\ Demo.json_Unmarshal_Records (Demo.body "records 10 11") []
     = ([Demo.found 10 "db-creds"; Demo.found 11 "db-creds"], None)
  /\ (2 <= length [Demo.found 10 "db-creds"; Demo.found 11 "db-creds"])%nat
  /\ exists st',
       Server_SecretNameToID Demo.accessResource Demo.json_Unmarshal_Records
         "db-creds" Demo.start
       = Some ((0, Some (MultipleSecretsFound
                           {| IDs := [10; 11]; searchedName := "db-creds" |})), st').
Proof.
  split; [vm_compute; reflexivity|]. split; [reflexivity|]. split; [simpl; lia|].
  apply (SecretNameToID_multiple Demo.accessResource Demo.json_Unmarshal_Records
           "db-creds" Demo.start (Demo.body "records 10 11") 1%nat
           [Demo.found 10 "db-creds"; Demo.found 11 "db-creds"]).
  - vm_compute; reflexivity.
  - reflexivity.
  - simpl; lia.
Defined.

(** One secret is named web admin; the blank travels as a plus sign. *)
Lemma SecretNameToID_single_witness :
  Demo.accessResource "GET" resource (search_path "web admin") None (world Demo.start)
    = ((Demo.body "records 3", None), 1%nat)
  /\ Demo.json_Unmarshal_Records (Demo.body "records 3") []
     = ([Demo.found 3 "web admin"], None)
  /\ length [Demo.found 3 "web admin"] = 1%nat
  /\ [Demo.found 3 "web admin"] !! 0%nat = Some (Demo.found 3 "web admin")
  /\ exists st',
       Server_SecretNameToID Demo.accessResource Demo.json_Unmarshal_Records
         "web admin" Demo.start
       = Some ((3, None), st').
Proof.
  split; [vm_compute; reflexivity|]. split; [reflexivity|].
  split; [reflexivity|]. split; [reflexivity|].
  apply (SecretNameToID_single Demo.accessResource Demo.json_Unmarshal_Records
           "web admin" Demo.start (Demo.body "records 3") 1%nat
           [Demo.found 3 "web admin"] (Demo.found 3 "web admin")).
  - vm_compute; reflexivity.
  - reflexivity.
  - reflexivity.
  - reflexivity.
Defined.

(** No secret is named nothing. *)
Lemma SecretNameToID_none_witness :
  Demo.accessResource "GET" resource (search_path "nothing") None (world Demo.start)
    = ((Demo.body "records", None), 1%nat)
  /\ Demo.json_Unmarshal_Records (Demo.body "records") [] = ([], None)
  /\ length (@nil record) = 0%nat
  /\ exists st' err,
       Server_SecretNameToID Demo.accessResource Demo.json_Unmarshal_Records
         "nothing" Demo.start
       = Some ((0, Some err), st') /\
       err = fmt_Errorf "no secrets found with name 'nothing'" /\
       Error err = "no secrets found with name 'nothing'" /\
       is_MultipleSecretsFoundError err = false.
Proof.
  split; [vm_compute; reflexivity|]. split; [reflexivity|]. split; [reflexivity|].
  apply (SecretNameToID_none Demo.accessResource Demo.json_Unmarshal_Records
           "nothing" Demo.start (Demo.body "records") 1%nat []).
  - vm_compute; reflexivity.
  - reflexivity.
  - reflexivity.
Defined.

(** Lookups in secret 9: by slug past a field that does not match, and by a
    name that differs from a field name in case only. *)
Lemma Field_first_match_witness :
  (Fields (Demo.secret 9 [Demo.password; Demo.cert; Demo.key])
     = [Demo.password] ++ Demo.cert :: [Demo.key]
   /\ (forall g, g ∈ [Demo.password] -> "cert" ≠ FieldName g /\ "cert" ≠ Slug g)
   /\ ("cert" = FieldName Demo.cert \/ "cert" = Slug Demo.cert)
   /\ Secret_Field (Demo.secret 9 [Demo.password; Demo.cert; Demo.key]) "cert"
      = (ItemValue Demo.cert, true))
  /\ ((forall g, g ∈ Fields (Demo.secret 9 [Demo.password; Demo.cert; Demo.key]) ->
                 "Password" ≠ FieldName g /\ "Password" ≠ Slug g)
      /\ Secret_Field (Demo.secret 9 [Demo.password; Demo.cert; Demo.key]) "Password"
         = ("", false)).
Proof.
  assert (Hpre : forall g, g ∈ [Demo.password] ->
                           "cert" ≠ FieldName g /\ "cert" ≠ Slug g).
  { intros g Hg. apply list_elem_of_singleton in Hg. subst g. split; discriminate. }
  assert (Hall : forall g,
             g ∈ Fields (Demo.secret 9 [Demo.password; Demo.cert; Demo.key]) ->
             "Password" ≠ FieldName g /\ "Password" ≠ Slug g).
  { intros g Hg. simpl in Hg. repeat (apply elem_of_cons in Hg as [->|Hg]);
      [split; discriminate ..|]. by apply elem_of_nil in Hg. }
  split.
  - split; [reflexivity|]. split; [exact Hpre|]. split; [right; reflexivity|].
    apply (proj1 (Field_first_match
                    (Demo.secret 9 [Demo.password; Demo.cert; Demo.key]) "cert")
             [Demo.password] Demo.cert [Demo.key]).
    + reflexivity.
    + exact Hpre.
    + right; reflexivity.
  - split; [exact Hall|].
    apply (proj2 (Field_first_match
                    (Demo.secret 9 [Demo.password; Demo.cert; Demo.key]) "Password")).
    exact Hall.
Defined.

(** ** Further properties of the file *)

Section Further.
Context {World : Type}.
Variable accessResource :
  string -> string -> string -> option bytes -> World -> (bytes * option error) * World.
Variable json_Unmarshal_Secret : bytes -> Secret -> Secret * option error.
Variable json_Unmarshal_Records : bytes -> list record -> list record * option error.

Abbreviation substitute := (substitute accessResource).
Abbreviation Server_Secret := (Server_Secret accessResource json_Unmarshal_Secret).
Abbreviation Server_SecretNameToID :=
  (Server_SecretNameToID accessResource json_Unmarshal_Records).

Implicit Types (st : State World) (w : World) (fields fs : list SecretField)
  (f : SecretField) (cs : list Call) (id : int) (e : error).

(** *** The result of [Secret] *)

(** X1. [Secret] always returns, and it returns either a secret and a nil
    error or a nil secret and an error, never both and never neither. *)
Theorem Secret_result_shape id st :
  exists r err st',
    Server_Secret id st = Some ((r, err), st') /\ (is_Some r <-> err = None).
Proof.
  rewrite Server_Secret_run.
  destruct (accessResource _ _ _ _ _) as [[data [e|]] w1].
  { eexists _, _, _. split; [done|]. split; [by intros [? ?]|done]. }
  destruct (json_Unmarshal_Secret _ _) as [secret [e|]].
  { eexists _, _, _. split; [done|]. split; [by intros [? ?]|done]. }
  destruct (substitute _ _ _) as [[[fs'|e] cs] w'];
    eexists _, _, _; (split; [done|]); split; try done; by intros [? ?].
Qed.

Lemma set_ItemValue_back f v : set_ItemValue (ItemValue f) (set_ItemValue v f) = f.
Proof. by destruct f. Qed.

Lemma set_ItemValue_same f : set_ItemValue (ItemValue f) f = f.
Proof. by destruct f. Qed.

(** X2. A secret that [Secret] returns is the decoded secret up to the
    [ItemValue]s of its fields: every other attribute of the secret is as
    decoded, there are as many fields, and putting the decoded [ItemValue]
    back into a returned field gives the decoded field. *)
Theorem Secret_keeps_shape id st secret err st' :
  Server_Secret id st = Some ((Some secret, err), st') ->
  exists data w1 decoded,
    accessResource "GET" resource (Itoa id) None (world st) = ((data, None), w1) /\
    json_Unmarshal_Secret data new_Secret = (decoded, None) /\
    set_Fields (Fields decoded) secret = decoded /\
    length (Fields secret) = length (Fields decoded) /\
    Forall2 (fun f f' => set_ItemValue (ItemValue f) f' = f)
            (Fields decoded) (Fields secret).
Proof.
  intros H. apply Server_Secret_inv in H as (data & perr & w1 & Hacc & H).
  destruct perr as [e|]; [by destruct H|].
  destruct H as (decoded & uerr & Hdec & H).
  destruct uerr as [e|]; [by destruct H|].
  destruct H as (r & cs & Hsub & _ & Hres).
  destruct r as [fs'|e]; [|done]. inversion Hres; subst. clear Hres.
  apply substitute_inl_fields in Hsub.
  exists data, w1, decoded. split; [done|]. split; [done|].
  split; [by destruct decoded|]. split.
  - simpl. symmetry. by eapply Forall2_length.
  - simpl. eapply Forall2_impl; [exact Hsub|]. intros f f' Hff'. simpl in Hff'.
    destruct (decide (has_attachment f)).
    + rewrite Hff'. apply set_ItemValue_back.
    + subst f'. apply set_ItemValue_same.
Qed.

(** X3. When the primary GET fails, or succeeds with bytes that do not
    decode, [Secret] stops there: the primary call is the only call it makes,
    and no attachment is asked for. *)
Theorem Secret_stops_at_first_failure id st data err w1 :
  accessResource "GET" resource (Itoa id) None (world st) = ((data, err), w1) ->
  err ≠ None \/ (json_Unmarshal_Secret data new_Secret).2 ≠ None ->
  exists e,
    Server_Secret id st =
      Some ((None, Some e),
            {| world := w1; calls := calls st ++ [secret_call id data err] |}).
Proof.
  intros Hacc Hfail. rewrite Server_Secret_run, Hacc.
  destruct err as [e|]; [eauto|].
  destruct Hfail as [?|Hfail]; [done|].
  destruct (json_Unmarshal_Secret data new_Secret) as [secret [e|]]; [eauto|done].
Qed.

Lemma substitute_never_fails id fs w :
  (forall path w0, (accessResource "GET" resource path None w0).1.2 = None) ->
  exists fs' cs w', substitute id fs w = (inl fs', cs, w').
Proof.
  intros Hok. revert w. induction fs as [|f fs IH]; intros w; simpl; [eauto|].
  destruct (decide (has_attachment f)).
  - specialize (Hok (Itoa id +:+ "/fields/" +:+ Slug f) w).
    destruct (accessResource _ _ _ _ w) as [[data err] w1]. simpl in Hok. subst err.
    destruct (IH w1) as (fs' & cs & w' & ->). simpl. eauto.
  - destruct (IH w) as (fs' & cs & w' & ->). simpl. eauto.
Qed.

(** X4. [Secret] adds no failure of its own to the loop: with an accessor
    that answers every GET on the resource without error, [Secret] returns a
    secret and a nil error as soon as the primary response decodes. *)
Theorem Secret_succeeds_when_calls_do id st :
  (forall path w, (accessResource "GET" resource path None w).1.2 = None) ->
  (json_Unmarshal_Secret
     (accessResource "GET" resource (Itoa id) None (world st)).1.1 new_Secret).2 = None ->
  exists secret st', Server_Secret id st = Some ((Some secret, None), st').
Proof.
  intros Hok Hdec. rewrite Server_Secret_run.
  assert (Hp := Hok (Itoa id) (world st)).
  destruct (accessResource _ _ _ _ (world st)) as [[data err] w1].
  simpl in Hp, Hdec. subst err.
  destruct (json_Unmarshal_Secret data new_Secret) as [secret uerr].
  simpl in Hdec. subst uerr.
  destruct (substitute_never_fails id (Fields secret) w1 Hok) as (fs' & cs & w' & ->).
  eauto.
Qed.

(** X5. A secret decoded without any attachment (every [FileAttachmentID]
    is 0) is returned exactly as decoded, after the primary call alone. *)
Theorem Secret_without_attachments id st data w1 decoded :
  accessResource "GET" resource (Itoa id) None (world st) = ((data, None), w1) ->
  json_Unmarshal_Secret data new_Secret = (decoded, None) ->
  Forall (fun f => FileAttachmentID f = 0) (Fields decoded) ->
  Server_Secret id st =
    Some ((Some decoded, None),
          {| world := w1; calls := calls st ++ [secret_call id data None] |}).
Proof.
  intros Hacc Hdec Hplain.
  rewrite Server_Secret_run, Hacc, Hdec, substitute_plain by done.
  by rewrite set_Fields_same.
Qed.

(** X6. Every error that [Secret] returns is either the error of the last
    call it made, or the decode error built from the failure of
    [json.Unmarshal] on the bytes of the primary call, which is then the
    only call. *)
Theorem Secret_error_provenance id st r e st' :
  Server_Secret id st = Some ((r, Some e), st') ->
  r = None /\
  exists cs c,
    calls st' = calls st ++ cs ++ [c] /\
    (call_err c = Some e \/
     (cs = [] /\ call_request c = secret_request id /\ call_err c = None /\
      exists ue, (json_Unmarshal_Secret (call_data c) new_Secret).2 = Some ue /\
                 e = fmt_Errorf ("parsing response from /secrets/" +:+ Itoa id +:+ ": "
                                   +:+ Error ue))).
Proof.
  intros H. apply Server_Secret_inv in H as (data & perr & w1 & Hacc & H).
  destruct perr as [e0|].
  { destruct H as (Hres & _ & Hc). inversion Hres; subst. split; [done|].
    eexists [], (secret_call id data (Some _)). split; [done|]. by left. }
  destruct H as (decoded & uerr & Hdec & H). destruct uerr as [ue|].
  { destruct H as (Hres & _ & Hc). inversion Hres; subst. split; [done|].
    exists [], (secret_call id data None). split; [done|]. right.
    repeat split. exists ue. simpl. by rewrite Hdec. }
  destruct H as (r0 & cs & Hsub & Hc & Hres).
  destruct r0 as [fs'|e0]; inversion Hres; subst. split; [done|].
  destruct (substitute_inr _ _ _ _ _ _ _ Hsub) as (cs0 & c & -> & He & _).
  exists (secret_call id data None :: cs0), c. split; [done|]. by left.
Qed.

(** *** The field lookup, alone and after a fetch *)

Lemma Field_loop_found (fields : list SecretField) (fieldName v : string) :
  Field_loop fields fieldName = (v, true) ->
  exists pre f post,
    fields = pre ++ f :: post /\
    (forall g, g ∈ pre -> fieldName ≠ FieldName g /\ fieldName ≠ Slug g) /\
    (fieldName = FieldName f \/ fieldName = Slug f) /\ ItemValue f = v.
Proof.
  induction fields as [|g fields IH]; [done|]. simpl.
  destruct (String.eqb fieldName (FieldName g)) eqn:Hn.
  { intros H. inversion H; subst. apply String.eqb_eq in Hn.
    exists [], g, fields. split; [done|].
    split; [intros g' Hg'; by apply elem_of_nil in Hg'|]. split; [by left|done]. }
  destruct (String.eqb fieldName (Slug g)) eqn:Hs; simpl.
  { intros H. inversion H; subst. apply String.eqb_eq in Hs.
    exists [], g, fields. split; [done|].
    split; [intros g' Hg'; by apply elem_of_nil in Hg'|]. split; [by right|done]. }
  intros H. destruct (IH H) as (pre & f & post & -> & Hpre & Hf & Hv).
  exists (g :: pre), f, post. split; [done|]. split; [|done].
  intros g' Hg'. apply elem_of_cons in Hg' as [->|?]; [|by apply Hpre].
  split; by apply String.eqb_neq.
Qed.

Lemma Field_loop_not_found (fields : list SecretField) (fieldName : string) :
  (Field_loop fields fieldName).2 = false ->
  Field_loop fields fieldName = ("", false) /\
  forall g, g ∈ fields -> fieldName ≠ FieldName g /\ fieldName ≠ Slug g.
Proof.
  induction fields as [|g fields IH]; simpl.
  { intros _. split; [done|]. intros g Hg. by apply elem_of_nil in Hg. }
  destruct (String.eqb fieldName (FieldName g)) eqn:Hn; [done|].
  destruct (String.eqb fieldName (Slug g)) eqn:Hs; [done|]. simpl.
  intros H. destruct (IH H) as [Heq Hall]. split; [done|].
  intros g' Hg'. apply elem_of_cons in Hg' as [->|?]; [|by apply Hall].
  split; by apply String.eqb_neq.
Qed.

(** X7. [Field] reports [true] exactly when some field has [fieldName] as
    its [FieldName] or [Slug]; the value it then returns is the [ItemValue]
    of such a field of the secret, and whenever it reports [false] the value
    is the empty string. *)
Theorem Field_found_iff (s : Secret) (fieldName : string) :
  ((Secret_Field s fieldName).2 = true <->
     exists f, f ∈ Fields s /\ (fieldName = FieldName f \/ fieldName = Slug f))
  /\ (forall v, Secret_Field s fieldName = (v, true) ->
        exists f, f ∈ Fields s /\ (fieldName = FieldName f \/ fieldName = Slug f) /\
                  ItemValue f = v)
  /\ ((Secret_Field s fieldName).2 = false -> Secret_Field s fieldName = ("", false)).
Proof.
  unfold Secret_Field. split; [split|split].
  - intros H. destruct (Field_loop (Fields s) fieldName) as [v b] eqn:Hf.
    simpl in H. subst b.
    apply Field_loop_found in Hf as (pre & f & post & Hfs & _ & Hm & _).
    exists f. split; [|done]. rewrite Hfs. apply elem_of_app. right. by left.
  - intros (f & Hin & Hm).
    destruct (Field_loop (Fields s) fieldName).2 eqn:Hb; [done|].
    apply Field_loop_not_found in Hb as [_ Hall].
    destruct (Hall f Hin). by destruct Hm.
  - intros v Hf.
    apply Field_loop_found in Hf as (pre & f & post & Hfs & _ & Hm & Hv).
    exists f. split; [|done]. rewrite Hfs. apply elem_of_app. right. by left.
  - intros H. by apply Field_loop_not_found in H as [? _].
Qed.

(** X8. Lookup over a concatenation of field lists: the fields in front
    shadow the fields behind, which are consulted only when no field in
    front matches. *)
Theorem Field_app (s : Secret) (front behind : list SecretField) (fieldName : string) :
  Secret_Field (set_Fields (front ++ behind) s) fieldName =
    if (Secret_Field (set_Fields front s) fieldName).2
    then Secret_Field (set_Fields front s) fieldName
    else Secret_Field (set_Fields behind s) fieldName.
Proof.
  unfold Secret_Field. simpl. induction front as [|g front IH]; [done|]. simpl.
  destruct (String.eqb fieldName (FieldName g) || String.eqb fieldName (Slug g));
    [done|]. exact IH.
Qed.

Lemma Field_loop_flag_same_keys (fs fs' : list SecretField) (fieldName : string) :
  Forall2 (fun f f' => FieldName f' = FieldName f /\ Slug f' = Slug f) fs fs' ->
  (Field_loop fs' fieldName).2 = (Field_loop fs fieldName).2.
Proof.
  induction 1 as [|f f' fs fs' [Hn Hs] _ IH]; [done|]. simpl. rewrite Hn, Hs.
  by destruct (String.eqb fieldName (FieldName f) || String.eqb fieldName (Slug f)).
Qed.

(** X9. Looking a name up in a fetched secret: when the first field that
    matches has a non-zero [FileAttachmentID], [Field] returns the text of
    the bytes that one of the error-free calls of this fetch, the GET on
    [{id}/fields/{slug}] of that field, was answered with. *)
Theorem Field_of_fetched_attachment id st secret err st' fieldName pre f post :
  Server_Secret id st = Some ((Some secret, err), st') ->
  Fields secret = pre ++ f :: post ->
  (forall g, g ∈ pre -> fieldName ≠ FieldName g /\ fieldName ≠ Slug g) ->
  fieldName = FieldName f \/ fieldName = Slug f ->
  FileAttachmentID f ≠ 0 ->
  exists cs c,
    calls st' = calls st ++ cs /\ c ∈ cs /\
    call_request c = attachment_request id f /\ call_err c = None /\
    Secret_Field secret fieldName = (string_of_list_byte (call_data c), true).
Proof.
  intros H Hfs Hpre Hm Hatt.
  apply Server_Secret_inv in H as (data & perr & w1 & Hacc & H).
  destruct perr as [e|]; [by destruct H|].
  destruct H as (decoded & uerr & Hdec & H).
  destruct uerr as [e|]; [by destruct H|].
  destruct H as (r & cs & Hsub & Hcalls & Hres).
  destruct r as [fs'|e]; [|done]. inversion Hres; subst. clear Hres.
  simpl in Hfs. subst fs'.
  assert (Hall := substitute_inl_calls _ _ _ _ _ _ _ Hsub).
  assert (f ∈ filter has_attachment (pre ++ f :: post)) as Hin.
  { apply list_elem_of_filter. split; [done|]. apply elem_of_app. right. by left. }
  apply list_elem_of_lookup in Hin as [i Hi].
  destruct (Forall2_lookup_l _ _ _ _ _ Hall Hi) as (c & Hc & Hreq & Herr & Hval).
  exists (secret_call id data None :: cs), c. split; [done|]. split.
  { right. apply list_elem_of_lookup. eauto. }
  split; [done|]. split; [done|].
  unfold Secret_Field. simpl. rewrite Field_loop_app by done. simpl.
  rewrite <- Hval.
  destruct Hm as [->| ->]; rewrite String.eqb_refl; [done|]. by rewrite orb_true_r.
Qed.

(** X10. Substituting the attachments does not change what a name finds:
    [Field] reports a field in the returned secret exactly when it reports
    one in the secret as decoded. *)
Theorem Field_found_as_decoded id st secret err st' fieldName :
  Server_Secret id st = Some ((Some secret, err), st') ->
  exists data w1 decoded,
    accessResource "GET" resource (Itoa id) None (world st) = ((data, None), w1) /\
    json_Unmarshal_Secret data new_Secret = (decoded, None) /\
    (Secret_Field secret fieldName).2 = (Secret_Field decoded fieldName).2.
Proof.
  intros H. apply Server_Secret_inv in H as (data & perr & w1 & Hacc & H).
  destruct perr as [e|]; [by destruct H|].
  destruct H as (decoded & uerr & Hdec & H).
  destruct uerr as [e|]; [by destruct H|].
  destruct H as (r & cs & Hsub & _ & Hres).
  destruct r as [fs'|e]; [|done]. inversion Hres; subst. clear Hres.
  exists data, w1, decoded. split; [done|]. split; [done|].
  unfold Secret_Field. simpl. apply Field_loop_flag_same_keys.
  apply substitute_inl_fields in Hsub.
  eapply Forall2_impl; [exact Hsub|]. intros f f' Hff'. simpl in Hff'.
  destruct (decide (has_attachment f)); [by rewrite Hff'|by subst].
Qed.

(** *** The name search *)

(** X11. [SecretNameToID] returns a [MultipleSecretsFoundError] only for an
    ambiguous name: the search call succeeded and decoded to two or more
    records, whose [ID]s, in order, are the [IDs] of the error, next to the
    name searched for. An error of that type coming from the accessor is not
    passed on as such. *)
Theorem SecretNameToID_ambiguous_only name st n m st' :
  Server_SecretNameToID name st = Some ((n, Some (MultipleSecretsFound m)), st') ->
  n = 0 /\ searchedName m = name /\
  exists data w1 (Records : list record),
    accessResource "GET" resource (search_path name) None (world st)
      = ((data, None), w1) /\
    json_Unmarshal_Records data [] = (Records, None) /\
    (2 <= length Records)%nat /\ IDs m = record_ID <$> Records.
Proof.
  rewrite Server_SecretNameToID_run.
  destruct (accessResource _ _ _ _ _) as [[data [e|]] w1] eqn:Hacc; [done|].
  destruct (json_Unmarshal_Records data []) as [Records [e|]] eqn:Hdec; [done|].
  destruct Records as [|r [|r' Records]]; [done|done|].
  intros H. inversion H; subst. split; [done|]. split; [done|].
  exists data, w1, (r :: r' :: Records).
  split; [done|]. split; [done|]. split; [simpl; lia|done].
Qed.

(** X12. [SecretNameToID] always returns; with an error the ID it returns
    is 0, and the error is nil only when the search call succeeded and
    decoded to exactly one record, whose [ID] is then the result. *)
Theorem SecretNameToID_result_shape name st :
  exists n err st',
    Server_SecretNameToID name st = Some ((n, err), st') /\
    (err ≠ None -> n = 0) /\
    (err = None ->
       exists data w1 r,
         accessResource "GET" resource (search_path name) None (world st)
           = ((data, None), w1) /\
         json_Unmarshal_Records data [] = ([r], None) /\ n = record_ID r).
Proof.
  rewrite Server_SecretNameToID_run.
  destruct (accessResource _ _ _ _ _) as [[data [e|]] w1] eqn:Hacc.
  { eexists _, _, _. split; [done|]. done. }
  destruct (json_Unmarshal_Records data []) as [Records [e|]] eqn:Hdec.
  { eexists _, _, _. split; [done|]. done. }
  destruct Records as [|r [|r' Records]]; eexists _, _, _; (split; [done|]);
    split; try done.
  intros _. by exists data, w1, r.
Qed.


(** X14. The message of the error for an ambiguous name, as [Error()]
    prints it, counts the records found:
    [multiple ({number of records}) secrets found with name {name}]. *)
Theorem SecretNameToID_multiple_message name st data w1 (Records : list record) :
  accessResource "GET" resource (search_path name) None (world st) = ((data, None), w1) ->
  json_Unmarshal_Records data [] = (Records, None) ->
  (2 <= length Records)%nat ->
  exists err st',
    Server_SecretNameToID name st = Some ((0, Some err), st') /\
    Error err = "multiple (" +:+ Itoa (Z.of_nat (length Records))
                  +:+ ") secrets found with name " +:+ name.
Proof.
  intros Hacc Hdec Hlen. rewrite Server_SecretNameToID_run, Hacc, Hdec.
  destruct Records as [|r [|r' Records]]; simpl in Hlen; [lia|lia|].
  eexists _, _. split; [done|]. simpl.
  unfold MultipleSecretsFoundError_Error. simpl. by rewrite length_fmap.
Qed.

End Further.

(** *** The paths of the requests *)

Ltac by_byte c := destruct c as [[] [] [] [] [] [] [] []]; reflexivity.

Lemma QueryEscape_cons c s :
  QueryEscape (String c s) = QueryEscape (String c "") +:+ QueryEscape s.
Proof. simpl. destruct (Ascii.eqb c " "); [done|]. by destruct (shouldEscape c). Qed.

Lemma count_char_app x a b :
  count_char x (a +:+ b) = (count_char x a + count_char x b)%nat.
Proof. induction a as [|c a IH]; [done|]. simpl. rewrite IH. lia. Qed.

Lemma count_char_QueryEscape x s :
  (forall c, count_char x (QueryEscape (String c "")) = 0%nat) ->
  count_char x (QueryEscape s) = 0%nat.
Proof.
  intros Hx. induction s as [|c s IH]; [done|].
  by rewrite QueryEscape_cons, count_char_app, Hx, IH.
Qed.

Lemma search_path_escaped name :
  search_path name =
    "?filter.doNotCalculateTotal=true&filter.searchFieldSlug=name&filter.searchText="
      +:+ QueryEscape name.
Proof. unfold search_path. by rewrite search_filter_encoded. Qed.

Lemma count_char_search_path x name :
  (forall c, count_char x (QueryEscape (String c "")) = 0%nat) ->
  count_char x (search_path name) =
    count_char x
      "?filter.doNotCalculateTotal=true&filter.searchFieldSlug=name&filter.searchText=".
Proof.
  intros Hx. rewrite search_path_escaped, count_char_app.
  rewrite count_char_QueryEscape by done. lia.
Qed.

(** X15. Whatever the name, the path of the search call has one [?], two
    [&] and three [=], and neither [#], [/] nor a blank: a name cannot add
    parameters to the query, cut it short or change the resource. *)
Theorem search_path_separators name :
  count_char "?" (search_path name) = 1%nat /\
  count_char "&" (search_path name) = 2%nat /\
  count_char "=" (search_path name) = 3%nat /\
  count_char "#" (search_path name) = 0%nat /\
  count_char "/" (search_path name) = 0%nat /\
  count_char " " (search_path name) = 0%nat.
Proof.
  rewrite !count_char_search_path by (intros c; by_byte c).
  by vm_compute.
Qed.

Lemma QueryUnescape_escaped_char c t :
  QueryUnescape (QueryEscape (String c "") +:+ t) = option_map (String c) (QueryUnescape t).
Proof. by_byte c. Qed.

Lemma QueryUnescape_QueryEscape s : QueryUnescape (QueryEscape s) = Some s.
Proof.
  induction s as [|c s IH]; [done|].
  by rewrite QueryEscape_cons, QueryUnescape_escaped_char, IH.
Qed.

Lemma append_inj_r p a b : p +:+ a = p +:+ b -> a = b.
Proof. induction p as [|c p IH]; [done|]. simpl. intros H. inversion H. auto. Qed.

(** X16. Escaping loses nothing: two names with the same search path are the
    same name, byte for byte, so the search call tells every name apart. *)
Theorem search_path_inj name name' :
  search_path name = search_path name' -> name = name'.
Proof.
  rewrite !search_path_escaped. intros H. apply append_inj_r in H.
  assert (Some name = Some name') as Heq
    by (by rewrite <- !QueryUnescape_QueryEscape, H).
  by inversion Heq.
Qed.

Lemma Itoa_inj (i j : int) : Itoa i = Itoa j -> i = j.
Proof.
  assert (Hnil : forall z : Z, Z.to_int z ≠ Decimal.Pos Decimal.Nil /\
                               Z.to_int z ≠ Decimal.Neg Decimal.Nil).
  { intros [|p|p]; split; simpl; try discriminate;
      intros H; inversion H as [Hp]; by apply DecimalPos.Unsigned.to_uint_nonnil in Hp. }
  unfold Itoa. intros H. apply (f_equal NilZero.int_of_string) in H.
  rewrite !NilZero.isi in H by apply Hnil.
  inversion H as [Hz]. by apply DecimalZ.to_int_inj.
Qed.

Lemma count_char_digits x (d : Decimal.uint) :
  in_range "0" "9" x = false ->
  count_char x (NilEmpty.string_of_uint d) = 0%nat.
Proof.
  intros Hx. induction d; simpl; [done|..];
    (destruct (Ascii.eqb x _) eqn:Heq; [apply Ascii.eqb_eq in Heq; by subst x|done]).
Qed.

Lemma count_char_Itoa x (i : int) :
  in_range "0" "9" x = false -> x ≠ "-"%char -> count_char x (Itoa i) = 0%nat.
Proof.
  intros Hx Hm. unfold Itoa.
  assert (Hu : forall d, count_char x (NilZero.string_of_uint d) = 0%nat).
  { intros d. destruct d; try apply (count_char_digits x _ Hx). simpl.
    destruct (Ascii.eqb x "0") eqn:Heq; [apply Ascii.eqb_eq in Heq; by subst x|done]. }
  destruct (Z.to_int i) as [d|d]; simpl; [apply Hu|].
  rewrite Hu. by destruct (Ascii.eqb_spec x "-").
Qed.

Lemma count_char_cons_0 x c s :
  count_char x (String c s) = 0%nat -> x ≠ c /\ count_char x s = 0%nat.
Proof.
  cbn [count_char]. destruct (Ascii.eqb_spec x c); [intros H; simpl in H; lia|].
  intros H. split; [done|]. simpl in H. lia.
Qed.

Lemma split_at_slash a b x y :
  count_char "/" a = 0%nat -> count_char "/" b = 0%nat ->
  a +:+ String "/" x = b +:+ String "/" y -> a = b /\ x = y.
Proof.
  revert b. induction a as [|c a IH]; intros [|c' b] Ha Hb H.
  - by inversion H.
  - apply count_char_cons_0 in Hb as [Hc _]. by inversion H.
  - apply count_char_cons_0 in Ha as [Hc _]. by inversion H.
  - apply count_char_cons_0 in Ha as [_ Ha]. apply count_char_cons_0 in Hb as [_ Hb].
    inversion H as [[Hc Ht]]. destruct (IH b Ha Hb Ht) as [-> ->]. done.
Qed.

(** X17. The paths tell the requests apart: two secret fetches with the same
    request are for the same id, two attachment fetches with the same request
    are for the same id and the same slug, and no request of one kind (secret
    fetch, attachment fetch, name search) is a request of another kind. *)
Theorem request_paths_apart :
  (forall id id' : int, secret_request id = secret_request id' -> id = id')
  /\ (forall (id id' : int) (f f' : SecretField),
        attachment_request id f = attachment_request id' f' ->
        id = id' /\ Slug f = Slug f')
  /\ (forall (id id' : int) (f : SecretField),
        secret_request id ≠ attachment_request id' f)
  /\ (forall (id : int) (name : string), secret_request id ≠ search_request name)
  /\ (forall (id : int) (f : SecretField) (name : string),
        attachment_request id f ≠ search_request name).
Proof.
  assert (Hslash : forall i : int, count_char "/" (Itoa i) = 0%nat)
    by (intros i; by apply count_char_Itoa).
  assert (Hquest : forall i : int, count_char "?" (Itoa i) = 0%nat)
    by (intros i; by apply count_char_Itoa).
  split; [|split; [|split; [|split]]].
  - intros id id' H. inversion H as [Hp]. by apply Itoa_inj.
  - intros id id' f f' H. inversion H as [Hp].
    apply split_at_slash in Hp as [Hi Hs]; [|done..].
    split; [by apply Itoa_inj|]. by apply (append_inj_r "fields/").
  - intros id id' f H. inversion H as [Hp].
    apply (f_equal (count_char "/")) in Hp.
    rewrite !count_char_app, !Hslash in Hp. simpl in Hp. lia.
  - intros id name H. inversion H as [Hp].
    apply (f_equal (count_char "?")) in Hp.
    rewrite Hquest, count_char_search_path in Hp by (intros c; by_byte c).
    by vm_compute in Hp.
  - intros id f name H. inversion H as [Hp].
    apply (f_equal (count_char "/")) in Hp.
    rewrite !count_char_app, Hslash, count_char_search_path in Hp
      by (intros c; by_byte c).
    simpl in Hp. lia.
Qed.

(** ** The further properties at work *)

(** Secret 7 comes back as decoded but for the value of its file field. *)
Lemma Secret_keeps_shape_witness :
  Server_Secret Demo.accessResource Demo.json_Unmarshal_Secret 7 Demo.start
    = Some ((Some (Demo.secret 7 [Demo.field "Notes" "notes-file" "hello world" 42]),
             None), Demo.after7)
  /\ exists data w1 decoded,
       Demo.accessResource "GET" resource (Itoa 7) None (world Demo.start)
         = ((data, None), w1) /\
       Demo.json_Unmarshal_Secret data new_Secret = (decoded, None) /\
       set_Fields (Fields decoded)
         (Demo.secret 7 [Demo.field "Notes" "notes-file" "hello world" 42]) = decoded /\
       length (Fields (Demo.secret 7 [Demo.field "Notes" "notes-file" "hello world" 42]))
         = length (Fields decoded) /\
       Forall2 (fun f f' => set_ItemValue (ItemValue f) f' = f) (Fields decoded)
         (Fields (Demo.secret 7 [Demo.field "Notes" "notes-file" "hello world" 42])).
Proof.
  split; [reflexivity|].
  apply (Secret_keeps_shape Demo.accessResource Demo.json_Unmarshal_Secret
           7 Demo.start _ None Demo.after7).
  reflexivity.
Defined.

(** Secret 8 does not decode: one call, no more. *)
Lemma Secret_stops_at_first_failure_witness :
  Demo.accessResource "GET" resource (Itoa 8) None (world Demo.start)
    = ((Demo.body "<html>", None), 1%nat)
  /\ (@None error ≠ None
      \/ (Demo.json_Unmarshal_Secret (Demo.body "<html>") new_Secret).2 ≠ None)
  /\ exists e,
       Server_Secret Demo.accessResource Demo.json_Unmarshal_Secret 8 Demo.start
       = Some ((None, Some e),
               {| world := 1%nat;
                  calls := calls Demo.start
                             ++ [secret_call 8 (Demo.body "<html>") None] |}).
Proof.
  assert (Hdec : (Demo.json_Unmarshal_Secret (Demo.body "<html>") new_Secret).2 ≠ None)
    by discriminate.
  split; [reflexivity|]. split; [right; exact Hdec|].
  apply (Secret_stops_at_first_failure Demo.accessResource Demo.json_Unmarshal_Secret
           8 Demo.start (Demo.body "<html>") None 1%nat).
  - reflexivity.
  - right; exact Hdec.
Defined.

(** The server that never fails hands out its secret with all attachments. *)
Lemma Secret_succeeds_when_calls_do_witness :
  (forall path w, (Mirror.accessResource "GET" resource path None w).1.2 = None)
  /\ (Mirror.json_Unmarshal_Secret
        (Mirror.accessResource "GET" resource (Itoa 9) None (world Demo.start)).1.1
        new_Secret).2 = None
  /\ exists secret st',
       Server_Secret Mirror.accessResource Mirror.json_Unmarshal_Secret 9 Demo.start
       = Some ((Some secret, None), st').
Proof.
  split; [reflexivity|]. split; [reflexivity|].
  apply (Secret_succeeds_when_calls_do Mirror.accessResource Mirror.json_Unmarshal_Secret
           9 Demo.start); reflexivity.
Defined.

(** Secret 5 has a password and nothing else. *)
Lemma Secret_without_attachments_witness :
  Demo.accessResource "GET" resource (Itoa 5) None (world Demo.start)
    = ((Demo.body "secret 5", None), 1%nat)
  /\ Demo.json_Unmarshal_Secret (Demo.body "secret 5") new_Secret
     = (Demo.secret 5 [Demo.password], None)
  /\ Forall (fun f => FileAttachmentID f = 0) (Fields (Demo.secret 5 [Demo.password]))
  /\ Server_Secret Demo.accessResource Demo.json_Unmarshal_Secret 5 Demo.start
     = Some ((Some (Demo.secret 5 [Demo.password]), None),
             {| world := 1%nat;
                calls := calls Demo.start
                           ++ [secret_call 5 (Demo.body "secret 5") None] |}).
Proof.
  assert (Hplain : Forall (fun f => FileAttachmentID f = 0)
                          (Fields (Demo.secret 5 [Demo.password])))
    by (repeat constructor).
  split; [reflexivity|]. split; [reflexivity|]. split; [exact Hplain|].
  apply (Secret_without_attachments Demo.accessResource Demo.json_Unmarshal_Secret
           5 Demo.start (Demo.body "secret 5") 1%nat (Demo.secret 5 [Demo.password]));
    [reflexivity|reflexivity|exact Hplain].
Defined.

(** The error of secret 9 is the error of its last call. *)
Lemma Secret_error_provenance_witness :
  Server_Secret Demo.accessResource Demo.json_Unmarshal_Secret 9 Demo.start
    = Some ((None, Some Demo.not_found), Demo.after9)
  /\ exists cs c,
       calls Demo.after9 = calls Demo.start ++ cs ++ [c] /\
       (call_err c = Some Demo.not_found \/
        (cs = [] /\ call_request c = secret_request 9 /\ call_err c = None /\
         exists ue, (Demo.json_Unmarshal_Secret (call_data c) new_Secret).2 = Some ue /\
                    Demo.not_found
                    = fmt_Errorf ("parsing response from /secrets/" +:+ Itoa 9 +:+ ": "
                                    +:+ Error ue))).
Proof.
  split; [reflexivity|].
  apply (Secret_error_provenance Demo.accessResource Demo.json_Unmarshal_Secret
           9 Demo.start None Demo.not_found Demo.after9).
  reflexivity.
Defined.

(** In secret 9, cert is found by its slug and Password, with a capital, is
    not found. *)
Lemma Field_found_iff_witness :
  Secret_Field (Demo.secret 9 [Demo.password; Demo.cert; Demo.key]) "cert"
    = (ItemValue Demo.cert, true)
  /\ (exists f, f ∈ Fields (Demo.secret 9 [Demo.password; Demo.cert; Demo.key]) /\
                ("cert" = FieldName f \/ "cert" = Slug f) /\
                ItemValue f = ItemValue Demo.cert)
  /\ (Secret_Field (Demo.secret 9 [Demo.password; Demo.cert; Demo.key]) "Password").2
     = false
  /\ Secret_Field (Demo.secret 9 [Demo.password; Demo.cert; Demo.key]) "Password"
     = ("", false).
Proof.
  split; [reflexivity|]. split.
  - apply (proj1 (proj2 (Field_found_iff
                           (Demo.secret 9 [Demo.password; Demo.cert; Demo.key]) "cert"))
             (ItemValue Demo.cert)).
    reflexivity.
  - split; [reflexivity|].
    apply (proj2 (proj2 (Field_found_iff
                           (Demo.secret 9 [Demo.password; Demo.cert; Demo.key])
                           "Password"))).
    reflexivity.
Defined.

(** Looking up notes-file in the fetched secret 7 gives the fetched text. *)
Lemma Field_of_fetched_attachment_witness :
  Server_Secret Demo.accessResource Demo.json_Unmarshal_Secret 7 Demo.start
    = Some ((Some (Demo.secret 7 [Demo.field "Notes" "notes-file" "hello world" 42]),
             None), Demo.after7)
  /\ Fields (Demo.secret 7 [Demo.field "Notes" "notes-file" "hello world" 42])
     = [] ++ Demo.field "Notes" "notes-file" "hello world" 42 :: []
  /\ (forall g : SecretField,
        g ∈ [] -> "notes-file" ≠ FieldName g /\ "notes-file" ≠ Slug g)
  /\ ("notes-file" = FieldName (Demo.field "Notes" "notes-file" "hello world" 42)
      \/ "notes-file" = Slug (Demo.field "Notes" "notes-file" "hello world" 42))
  /\ FileAttachmentID (Demo.field "Notes" "notes-file" "hello world" 42) ≠ 0
  /\ exists cs c,
       calls Demo.after7 = calls Demo.start ++ cs /\ c ∈ cs /\
       call_request c
         = attachment_request 7 (Demo.field "Notes" "notes-file" "hello world" 42) /\
       call_err c = None /\
       Secret_Field (Demo.secret 7 [Demo.field "Notes" "notes-file" "hello world" 42])
                    "notes-file"
       = (string_of_list_byte (call_data c), true).
Proof.
  assert (Hpre : forall g : SecretField,
             g ∈ [] -> "notes-file" ≠ FieldName g /\ "notes-file" ≠ Slug g).
  { intros g Hg. by apply elem_of_nil in Hg. }
  assert (Hatt : FileAttachmentID (Demo.field "Notes" "notes-file" "hello world" 42) ≠ 0)
    by discriminate.
  split; [reflexivity|]. split; [reflexivity|]. split; [exact Hpre|].
  split; [right; reflexivity|]. split; [exact Hatt|].
  apply (Field_of_fetched_attachment Demo.accessResource Demo.json_Unmarshal_Secret
           7 Demo.start _ None Demo.after7 "notes-file" []
           (Demo.field "Notes" "notes-file" "hello world" 42) []).
  - reflexivity.
  - reflexivity.
  - exact Hpre.
  - right; reflexivity.
  - exact Hatt.
Defined.

(** The name Notes finds a field in secret 7 before and after the fetch. *)
Lemma Field_found_as_decoded_witness :
  Server_Secret Demo.accessResource Demo.json_Unmarshal_Secret 7 Demo.start
    = Some ((Some (Demo.secret 7 [Demo.field "Notes" "notes-file" "hello world" 42]),
             None), Demo.after7)
  /\ exists data w1 decoded,
       Demo.accessResource "GET" resource (Itoa 7) None (world Demo.start)
         = ((data, None), w1) /\
       Demo.json_Unmarshal_Secret data new_Secret = (decoded, None) /\
       (Secret_Field (Demo.secret 7 [Demo.field "Notes" "notes-file" "hello world" 42])
                     "Notes").2
       = (Secret_Field decoded "Notes").2.
Proof.
  split; [reflexivity|].
  apply (Field_found_as_decoded Demo.accessResource Demo.json_Unmarshal_Secret
           7 Demo.start _ None Demo.after7 "Notes").
  reflexivity.
Defined.

(** The ambiguous name db-creds, read back from the error. *)
Lemma SecretNameToID_ambiguous_only_witness :
  Server_SecretNameToID Demo.accessResource Demo.json_Unmarshal_Records
    "db-creds" Demo.start
    = Some ((0, Some (MultipleSecretsFound
                        {| IDs := [10; 11]; searchedName := "db-creds" |})),
            {| world := 1%nat;
               calls := [Demo.call (search_request "db-creds")
                                   (Demo.body "records 10 11") None] |})
  /\ 0 = 0
  /\ searchedName {| IDs := [10; 11]; searchedName := "db-creds" |} = "db-creds"
  /\ exists data w1 (Records : list record),
       Demo.accessResource "GET" resource (search_path "db-creds") None
         (world Demo.start) = ((data, None), w1) /\
       Demo.json_Unmarshal_Records data [] = (Records, None) /\
       (2 <= length Records)%nat /\
       IDs {| IDs := [10; 11]; searchedName := "db-creds" |} = record_ID <$> Records.
Proof.
  split; [vm_compute; reflexivity|].
  apply (SecretNameToID_ambiguous_only Demo.accessResource Demo.json_Unmarshal_Records
           "db-creds" Demo.start 0
           {| IDs := [10; 11]; searchedName := "db-creds" |}
           {| world := 1%nat;
              calls := [Demo.call (search_request "db-creds")
                                  (Demo.body "records 10 11") None] |}).
  vm_compute; reflexivity.
Defined.

(** The name nothing: an error, and 0 for the ID. *)
Lemma SecretNameToID_result_shape_witness :
  exists n err st',
    Server_SecretNameToID Demo.accessResource Demo.json_Unmarshal_Records
      "nothing" Demo.start = Some ((n, err), st')
    /\ err ≠ None /\ n = 0.
Proof.
  destruct (SecretNameToID_result_shape Demo.accessResource Demo.json_Unmarshal_Records
              "nothing" Demo.start) as (n & err & st' & Hrun & Hzero & _).
  exists n, err, st'. split; [exact Hrun|].
  assert (Hrun' : Server_SecretNameToID Demo.accessResource Demo.json_Unmarshal_Records
                    "nothing" Demo.start
                  = Some ((0, Some (fmt_Errorf "no secrets found with name 'nothing'")),
                          {| world := 1%nat;
                             calls := [Demo.call (search_request "nothing")
                                                 (Demo.body "records") None] |}))
    by (vm_compute; reflexivity).
  rewrite Hrun' in Hrun. inversion Hrun; subst n err st'.
  split; [discriminate|]. apply Hzero. discriminate.
Defined.


(** What the caller prints for db-creds. *)
Lemma SecretNameToID_multiple_message_witness :
  Demo.accessResource "GET" resource (search_path "db-creds") None (world Demo.start)
    = ((Demo.body "records 10 11", None), 1%nat)
  /\ Demo.json_Unmarshal_Records (Demo.body "records 10 11") []
     = ([Demo.found 10 "db-creds"; Demo.found 11 "db-creds"], None)
  /\ (2 <= length [Demo.found 10 "db-creds"; Demo.found 11 "db-creds"])%nat
  /\ exists err st',
       Server_SecretNameToID Demo.accessResource Demo.json_Unmarshal_Records
         "db-creds" Demo.start = Some ((0, Some err), st') /\
       Error err = "multiple (2) secrets found with name db-creds".
Proof.
  split; [vm_compute; reflexivity|]. split; [reflexivity|]. split; [simpl; lia|].
  apply (SecretNameToID_multiple_message Demo.accessResource Demo.json_Unmarshal_Records
           "db-creds" Demo.start (Demo.body "records 10 11") 1%nat
           [Demo.found 10 "db-creds"; Demo.found 11 "db-creds"]).
  - vm_compute; reflexivity.
  - reflexivity.
  - simpl; lia.
Defined.

(** The same path, the same name. *)
Lemma search_path_inj_witness :
  search_path "web admin" = search_path ("web" +:+ " admin")
  /\ "web admin" = "web" +:+ " admin".
Proof.
  split; [reflexivity|].
  apply (search_path_inj "web admin" ("web" +:+ " admin")). reflexivity.
Defined.

(** The two requests for the certificate of secret 9 agree on id and slug,
    whatever else the field says. *)
Lemma request_paths_apart_witness :
  attachment_request 9 Demo.cert
    = attachment_request (4 + 5) (Demo.field "Cert (PEM)" "cert" "" 1)
  /\ 9 = 4 + 5
  /\ Slug Demo.cert = Slug (Demo.field "Cert (PEM)" "cert" "" 1).
Proof.
  split; [reflexivity|].
  apply (proj1 (proj2 request_paths_apart)
           9 (4 + 5) Demo.cert (Demo.field "Cert (PEM)" "cert" "" 1)).
  reflexivity.
Defined.
